(** * Block batch iterator (pkg/chain_iterator/block_batch_iterator.go)

    A shallow embedding of the block batch iterator of taiko-client and the
    properties of its cursor, epoch functions, constructor and retry driver.

    Everything outside the iterator (the node behind the RPC client, the
    cancellation state of the context, whatever the callback does with a
    batch, the passing of time) lives in an abstract [World].  The client's
    methods, the context and the callback are functions over that world; the
    iterator's own methods are written in a small monad that threads the
    world and records, in order, every call the iterator makes. *)

From Stdlib Require Import ZArith List String Bool Lia DecimalString.
Import ListNotations.
Local Open Scope string_scope.
Local Open Scope list_scope.
Local Open Scope Z_scope.

(** ** Machine integers *)

Definition two64 : Z := 2 ^ 64.

(** [uint64] addition and subtraction wrap around. *)
Definition add64 (a b : Z) : Z := (a + b) mod two64.
Definition sub64 (a b : Z) : Z := (a - b) mod two64.

(** [Uint64] of a [big.Int]: the low 64 bits of the absolute value. *)
Definition Uint64 (x : Z) : Z := Z.abs x mod two64.

Definition is_uint64 (x : Z) : Prop := 0 <= x < two64.

(** ** Errors

    The sentinel errors the iterator tests for, [errors.New], wrapping by
    [fmt.Errorf] with a trailing [%w], and [backoff.Permanent]. *)

Inductive error : Type :=
| io_EOF
| errContinue
| ethereum_NotFound
| context_Canceled
| context_DeadlineExceeded
| errors_New (msg : string)
| fmt_Errorf (prefix : string) (wrapped : error)
| backoff_Permanent (inner : error).

Definition error_eq_dec (a b : error) : {a = b} + {a <> b}.
Proof. decide equality; apply string_dec. Defined.

(** [err.Error()] *)
Fixpoint Error (e : error) : string :=
  match e with
  | io_EOF => "EOF"
  | errContinue => "continue"
  | ethereum_NotFound => "not found"
  | context_Canceled => "context canceled"
  | context_DeadlineExceeded => "context deadline exceeded"
  | errors_New msg => msg
  | fmt_Errorf prefix wrapped => (prefix ++ Error wrapped)%string
  | backoff_Permanent inner => Error inner
  end.

(** [errors.Is(err, target)]: walks the chain of wrapped errors. *)
Fixpoint errors_Is (err target : error) : bool :=
  if error_eq_dec err target then true
  else match err with
       | fmt_Errorf _ wrapped => errors_Is wrapped target
       | backoff_Permanent inner => errors_Is inner target
       | _ => false
       end.

(** [errors.As(err, &permanent)] followed by [permanent.Err]: the error
    inside the outermost [*backoff.PermanentError] of the chain. *)
Fixpoint as_Permanent (err : error) : option error :=
  match err with
  | backoff_Permanent inner => Some inner
  | fmt_Errorf _ wrapped => as_Permanent wrapped
  | _ => None
  end.

(** [%d] and [%s] of a [big.Int] in a format string. *)
Definition format_big (x : Z) : string := NilEmpty.string_of_int (Z.to_int x).

Definition format_big_ptr (x : option Z) : string :=
  match x with
  | Some x => format_big x
  | None => "<nil>"
  end.

(** A Go [(value, error)] pair of which the caller reads the value only
    when the error is nil. *)
Inductive result (A : Type) : Type :=
| Ok (a : A)
| Err (e : error).
Arguments Ok {A} a.
Arguments Err {A} e.

(** ** Headers *)

(** [types.Header], reduced to the two things the iterator reads: the
    block number (a [*big.Int]) and the digest [Hash()] computes. *)
Record Header : Type := mkHeader {
  Number : Z;
  Hash : Z
}.

(** What the callback does with the two capabilities it is handed, in
    the order of its calls. *)
Inductive CallbackAction : Type :=
| CallUpdateCurrent (h : option Header)
| CallEnd.

(** ** Calls made by the iterator, with what they returned *)

Inductive Event : Type :=
| EvChainID (r : result Z)
| EvBlockNumber (r : result Z)
| EvHeaderByNumber (n : option Z) (r : result Header)
| EvHeaderByHash (h : Z) (r : option Header * option error)
| EvOnBlocks (start end_ : Header) (acts : list CallbackAction) (err : option error)
| EvBackOff (interval : Z).

(** A network call is a call to the chain accessor. *)
Definition is_network_call (ev : Event) : bool :=
  match ev with
  | EvChainID _ | EvBlockNumber _ | EvHeaderByNumber _ _ | EvHeaderByHash _ _ => true
  | EvOnBlocks _ _ _ _ | EvBackOff _ => false
  end.

Definition network_calls (evs : list Event) : list Event :=
  filter is_network_call evs.

(** The [(start, end)] heights of the batches handed to the callback. *)
Fixpoint callback_pairs (evs : list Event) : list (Z * Z) :=
  match evs with
  | [] => []
  | EvOnBlocks s e _ _ :: rest => (Uint64 (Number s), Uint64 (Number e)) :: callback_pairs rest
  | _ :: rest => callback_pairs rest
  end.

Definition DefaultBlocksReadPerEpoch : Z := 1000.
(** [12 * time.Second], in nanoseconds. *)
Definition DefaultRetryInterval : Z := 12 * 1000000000.

Section Iterator.

Context {World : Type}.

(** ** The monad: world passing, with the log of calls *)

Definition M (A : Type) : Type := World -> World * list Event * A.

Definition ret {A} (a : A) : M A := fun w => (w, [], a).

Definition bind {A B} (c : M A) (k : A -> M B) : M B :=
  fun w =>
    let '(w1, evs1, a) := c w in
    let '(w2, evs2, b) := k a w1 in
    (w2, evs1 ++ evs2, b).

Notation "x <- c1 ;; c2" := (bind c1 (fun x => c2))
  (at level 61, c1 at next level, right associativity).
Notation "' pat <- c1 ;; c2" := (bind c1 (fun x => match x with pat => c2 end))
  (at level 61, pat pattern, c1 at next level, right associativity).

(** ** The collaborators *)

(** [rpc.EthClient], as far as the iterator uses it.  [HeaderByNumber]
    takes [None] for a nil number (the latest header).  [HeaderByHash]
    returns both halves of its pair, since the reorg check reads both; of
    the other methods the iterator reads the value only when the error is
    nil, hence a [result]. *)
Record EthClient : Type := {
  ChainID : World -> World * result Z;
  BlockNumber : World -> World * result Z;
  HeaderByNumber : option Z -> World -> World * result Header;
  HeaderByHash : Z -> World -> World * (option Header * option error)
}.

(** [context.Context]: only [ctx.Err()] is used. *)
Definition context_Context : Type := World -> option error.

Definition OnBlocksFunc : Type :=
  Header -> Header -> World -> World * (list CallbackAction * option error).

Record BlockBatchIterator : Type := mkIterator {
  ctx : context_Context;
  client : EthClient;
  chainID : Z;
  blocksReadPerEpoch : Z;
  startHeight : Z;
  endHeight : option Z;
  current : Header;
  onBlocks : OnBlocksFunc;
  isEnd : bool;
  reverse : bool;
  reorgRewindDepth : Z;
  retryInterval : Z
}.

Record BlockBatchIteratorConfig : Type := mkConfig {
  Client : option EthClient;
  MaxBlocksReadPerEpoch : option Z;
  StartHeight : option Z;
  EndHeight : option Z;
  OnBlocks : option OnBlocksFunc;
  Reverse : bool;
  ReorgRewindDepth : option Z;
  RetryInterval : option Z
}.

Definition set_current (i : BlockBatchIterator) (h : Header) : BlockBatchIterator :=
  mkIterator (ctx i) (client i) (chainID i) (blocksReadPerEpoch i) (startHeight i)
             (endHeight i) h (onBlocks i) (isEnd i) (reverse i)
             (reorgRewindDepth i) (retryInterval i).

Definition set_isEnd (i : BlockBatchIterator) (b : bool) : BlockBatchIterator :=
  mkIterator (ctx i) (client i) (chainID i) (blocksReadPerEpoch i) (startHeight i)
             (endHeight i) (current i) (onBlocks i) b (reverse i)
             (reorgRewindDepth i) (retryInterval i).

(** Logged calls. *)
Definition call_ChainID (c : EthClient) : M (result Z) :=
  fun w => let '(w', r) := ChainID c w in (w', [EvChainID r], r).

Definition call_BlockNumber (c : EthClient) : M (result Z) :=
  fun w => let '(w', r) := BlockNumber c w in (w', [EvBlockNumber r], r).

Definition call_HeaderByNumber (c : EthClient) (n : option Z) : M (result Header) :=
  fun w => let '(w', r) := HeaderByNumber c n w in (w', [EvHeaderByNumber n r], r).

Definition call_HeaderByHash (c : EthClient) (h : Z)
  : M (option Header * option error) :=
  fun w => let '(w', r) := HeaderByHash c h w in (w', [EvHeaderByHash h r], r).

(** ** The two capabilities *)

(** [updateCurrent]: a nil header is ignored (with a warning). *)
Definition updateCurrent (i : BlockBatchIterator) (h : option Header)
  : BlockBatchIterator :=
  match h with
  | None => i
  | Some h => set_current i h
  end.

(** [end] *)
Definition end_ (i : BlockBatchIterator) : BlockBatchIterator :=
  set_isEnd i true.

Definition apply_action (i : BlockBatchIterator) (a : CallbackAction)
  : BlockBatchIterator :=
  match a with
  | CallUpdateCurrent h => updateCurrent i h
  | CallEnd => end_ i
  end.

(** [i.onBlocks(i.ctx, start, end, i.updateCurrent, i.end)]: the callback
    runs in the world and its calls to the capabilities act on [i]. *)
Definition call_onBlocks (i : BlockBatchIterator) (s e : Header)
  : M (BlockBatchIterator * option error) :=
  fun w =>
    let '(w', (acts, err)) := onBlocks i s e w in
    (w', [EvOnBlocks s e acts err], (fold_left apply_action acts i, err)).

(** ** Reorg check and rewind *)

Definition rewindOnReorgDetected (i : BlockBatchIterator)
  : M (BlockBatchIterator * option error) :=
  let newCurrentHeight :=
    if Uint64 (Number (current i)) <=? reorgRewindDepth i then 0
    else sub64 (Uint64 (Number (current i))) (reorgRewindDepth i) in
  r <- call_HeaderByNumber (client i) (Some newCurrentHeight) ;;
  match r with
  | Err e => ret (i, Some e)
  | Ok h => ret (set_current i h, None)
  end.

Definition is_not_found (e : error) : bool :=
  String.eqb (Error e) (Error ethereum_NotFound).

Definition ensureCurrentNotReorged (i : BlockBatchIterator)
  : M (BlockBatchIterator * option error) :=
  '(cur, err) <- call_HeaderByHash (client i) (Hash (current i)) ;;
  match err with
  | Some e =>
      if negb (is_not_found e) then ret (i, Some e)
      else match cur with
           | Some _ => ret (i, None)
           | None => rewindOnReorgDetected i
           end
  | None =>
      match cur with
      | Some _ => ret (i, None)
      | None => rewindOnReorgDetected i
      end
  end.

(** ** Construction *)

Definition NewBlockBatchIterator (ctx0 : context_Context)
  (cfg : BlockBatchIteratorConfig) : M (result BlockBatchIterator) :=
  match Client cfg with
  | None => ret (Err (errors_New "invalid RPC client"))
  | Some cl =>
  match OnBlocks cfg with
  | None => ret (Err (errors_New "invalid callback"))
  | Some cb =>
  r <- call_ChainID cl ;;
  match r with
  | Err e => ret (Err (fmt_Errorf "failed to get chain ID, error: " e))
  | Ok chainID0 =>
  match StartHeight cfg with
  | None => ret (Err (errors_New "invalid start height"))
  | Some start =>
  if match EndHeight cfg with
     | Some e => start >? e
     | None => false
     end
  then ret (Err (errors_New ("start height (" ++ format_big start
                             ++ ") > end height ("
                             ++ format_big_ptr (EndHeight cfg) ++ ")")))
  else
  r <- call_HeaderByNumber cl (Some start) ;;
  match r with
  | Err e => ret (Err (fmt_Errorf ("failed to get start header, height: "
                                   ++ format_big start ++ ", error: ") e))
  | Ok startHeader =>
  if Reverse cfg && match EndHeight cfg with None => true | Some _ => false end
  then ret (Err (errors_New "missing end height"))
  else
  r <- call_HeaderByNumber cl (EndHeight cfg) ;;
  match r with
  | Err e => ret (Err (fmt_Errorf ("failed to get end header, height: "
                                   ++ format_big_ptr (EndHeight cfg)
                                   ++ ", error: ") e))
  | Ok endHeader =>
  ret (Ok {| ctx := ctx0;
             client := cl;
             chainID := chainID0;
             blocksReadPerEpoch :=
               match MaxBlocksReadPerEpoch cfg with
               | Some n => n
               | None => DefaultBlocksReadPerEpoch
               end;
             startHeight := Uint64 start;
             endHeight :=
               match EndHeight cfg with
               | Some e => Some (Uint64 e)
               | None => None
               end;
             current := if Reverse cfg then endHeader else startHeader;
             onBlocks := cb;
             isEnd := false;
             reverse := Reverse cfg;
             (* no assignment in the source: Go's zero value;
                [ReorgRewindDepth cfg] is not read *)
             reorgRewindDepth := 0;
             retryInterval :=
               match RetryInterval cfg with
               | None => DefaultRetryInterval
               | Some d => d
               end |})
  end end end end end end.

(** ** One epoch *)

(** The end of the forward batch that starts at height [h], and whether
    it is the last one ([iter], from [endHeight = ...] to the clamp). *)
Definition iter_endHeight (h batch destHeight : Z) : Z * bool :=
  let endHeight0 := add64 h batch in
  if endHeight0 >=? destHeight then (destHeight, true) else (endHeight0, false).

(** The start of the reverse batch that ends at height [h], and whether
    it is the last one ([reverseIter], the floor at 0 and the clamp). *)
Definition reverseIter_startHeight (h batch start : Z) : Z * bool :=
  let startHeight0 := if h <=? batch then 0 else sub64 h batch in
  if startHeight0 <=? start then (start, true) else (startHeight0, false).

Definition reorg_check_failed : string :=
  "failed to check whether iterator.current cursor has been reorged: ".

Definition iter (i : BlockBatchIterator) : M (BlockBatchIterator * option error) :=
  '(i, err) <- ensureCurrentNotReorged i ;;
  match err with
  | Some e => ret (i, Some (fmt_Errorf reorg_check_failed e))
  | None =>
  r <- match endHeight i with
       | Some d => ret (Ok d)
       | None => call_BlockNumber (client i)
       end ;;
  match r with
  | Err e => ret (i, Some e)
  | Ok destHeight =>
  if Uint64 (Number (current i)) >=? destHeight then ret (i, Some io_EOF)
  else
  let '(endHeight1, isLastEpoch) :=
    iter_endHeight (Uint64 (Number (current i))) (blocksReadPerEpoch i) destHeight in
  r <- call_HeaderByNumber (client i) (Some endHeight1) ;;
  match r with
  | Err e => ret (i, Some e)
  | Ok endHeader =>
  '(i, err) <- call_onBlocks i (current i) endHeader ;;
  match err with
  | Some e => ret (i, Some e)
  | None =>
  if isEnd i then ret (i, Some io_EOF)
  else
  let i := set_current i endHeader in
  if negb isLastEpoch && negb (isEnd i) then ret (i, Some errContinue)
  else ret (i, Some io_EOF)
  end end end end.

Definition reverseIter (i : BlockBatchIterator)
  : M (BlockBatchIterator * option error) :=
  '(i, err) <- ensureCurrentNotReorged i ;;
  match err with
  | Some e => ret (i, Some (fmt_Errorf reorg_check_failed e))
  | None =>
  if Uint64 (Number (current i)) <=? startHeight i then ret (i, Some io_EOF)
  else
  let '(startHeight1, isLastEpoch) :=
    reverseIter_startHeight (Uint64 (Number (current i))) (blocksReadPerEpoch i)
                            (startHeight i) in
  r <- call_HeaderByNumber (client i) (Some startHeight1) ;;
  match r with
  | Err e => ret (i, Some e)
  | Ok startHeader =>
  '(i, err) <- call_onBlocks i startHeader (current i) ;;
  match err with
  | Some e => ret (i, Some e)
  | None =>
  let i := set_current i startHeader in
  if negb isLastEpoch && negb (isEnd i) then ret (i, Some errContinue)
  else ret (i, Some io_EOF)
  end end end.

(** ** The driver *)

(** How a loop of the driver came out: it returned (an error or nil), or
    the model ran out of fuel before it did. *)
Inductive outcome : Type :=
| Returned (err : option error)
| OutOfFuel.

Definition EpochFunc : Type := BlockBatchIterator -> M (BlockBatchIterator * option error).

(** [iterOp], the closure handed to [backoff.Retry]: one unit of fuel per
    turn of its [for] loop.  A canceled context breaks out of the loop, and
    so does an epoch that returns [io.EOF]: both make [iterOp] return nil;
    [errContinue] and a nil error go round again. *)
Fixpoint iterOp (fuel : nat) (iterFunc : EpochFunc) (i : BlockBatchIterator)
  : M (BlockBatchIterator * outcome) :=
  match fuel with
  | O => ret (i, OutOfFuel)
  | S fuel' =>
      fun w =>
        match ctx i w with
        | Some _ => (w, [], (i, Returned None))
        | None =>
            ('(i', err) <- iterFunc i ;;
             match err with
             | Some e =>
                 if errors_Is e io_EOF then ret (i', Returned None)
                 else if errors_Is e errContinue then iterOp fuel' iterFunc i'
                 else ret (i', Returned (Some e))
             | None => iterOp fuel' iterFunc i'
             end) w
        end
  end.

(** What the timer of [backoff.Retry] does to the world while it waits. *)
Variable timer_wait : Z -> World -> World.

Definition wait (interval : Z) : M unit :=
  fun w => (timer_wait interval w, [EvBackOff interval], tt).

(** [backoff.Retry(op, backoff.NewConstantBackOff(interval))] of the
    backoff library: run [op] until it returns nil or a permanent error,
    waiting [interval] after each failure; a constant back-off never stops
    and carries no context of its own.  One unit of fuel per attempt. *)
Fixpoint backoff_Retry (fuel : nat)
  (op : BlockBatchIterator -> M (BlockBatchIterator * outcome))
  (interval : Z) (i : BlockBatchIterator) : M (BlockBatchIterator * outcome) :=
  match fuel with
  | O => ret (i, OutOfFuel)
  | S fuel' =>
      '(i', r) <- op i ;;
      match r with
      | OutOfFuel => ret (i', OutOfFuel)
      | Returned None => ret (i', Returned None)
      | Returned (Some e) =>
          match as_Permanent e with
          | Some inner => ret (i', Returned (Some inner))
          | None => _ <- wait interval ;; backoff_Retry fuel' op interval i'
          end
      end
  end.

(** The epoch function [Iter] picks: [i.iter], or [i.reverseIter] in
    reverse mode. *)
Definition iterFunc_of (i : BlockBatchIterator) : EpochFunc :=
  if reverse i then reverseIter else iter.

(** [Iter]: [fuel] bounds both the attempts of [backoff.Retry] and the
    turns of each [iterOp]. *)
Definition Iter (fuel : nat) (i : BlockBatchIterator)
  : M (BlockBatchIterator * outcome) :=
  let iterFunc := iterFunc_of i in
  '(i', r) <- backoff_Retry fuel (iterOp fuel iterFunc) (retryInterval i) i ;;
  match r with
  | OutOfFuel => ret (i', OutOfFuel)
  | Returned (Some e) => ret (i', Returned (Some e))
  | Returned None => fun w => (w, [], (i', Returned (ctx i' w)))
  end.

End Iterator.

Arguments EthClient World : clear implicits.
Arguments OnBlocksFunc World : clear implicits.
Arguments context_Context World : clear implicits.
Arguments BlockBatchIterator World : clear implicits.
Arguments BlockBatchIteratorConfig World : clear implicits.

(** ** Vocabulary of the properties *)

(** The header of the last call to update-cursor that carried one. *)
Fixpoint last_update (acts : list CallbackAction) : option Header :=
  match acts with
  | [] => None
  | CallUpdateCurrent (Some h) :: rest =>
      match last_update rest with
      | Some h' => Some h'
      | None => Some h
      end
  | _ :: rest => last_update rest
  end.

(** Whether end-iteration was called. *)
Definition calls_end (acts : list CallbackAction) : bool :=
  existsb (fun a => match a with CallEnd => true | CallUpdateCurrent _ => false end) acts.

(** Two iterator values that differ at most in the cursor and the latch. *)
Definition same_config {World} (i i' : BlockBatchIterator World) : Prop :=
  ctx i' = ctx i /\ client i' = client i /\ chainID i' = chainID i /\
  blocksReadPerEpoch i' = blocksReadPerEpoch i /\ startHeight i' = startHeight i /\
  endHeight i' = endHeight i /\ onBlocks i' = onBlocks i /\ reverse i' = reverse i /\
  reorgRewindDepth i' = reorgRewindDepth i /\ retryInterval i' = retryInterval i.

(** A forward iterator over the chain [chain], bound for height [E] in
    batches of [B], with its cursor at height [c] and its latch open. *)
Definition forward_at {World} (cl : EthClient World) (cb : OnBlocksFunc World)
  (ctx0 : context_Context World) (chain : Z -> Header) (E B : Z)
  (i : BlockBatchIterator World) (c : Z) : Prop :=
  client i = cl /\ onBlocks i = cb /\ ctx i = ctx0 /\ endHeight i = Some E /\
  blocksReadPerEpoch i = B /\ isEnd i = false /\ current i = chain c.

(** Batches that chain from height [s] to height [E] in steps of [B]:
    each pair starts where the one before ended, every pair but the last
    spans exactly [B], the last one ends at [E] and spans at most [B].
    With no pair at all, [s] is [E] already. *)
Fixpoint chained (B E s : Z) (pairs : list (Z * Z)) : Prop :=
  match pairs with
  | [] => s = E
  | (a, b) :: rest =>
      a = s /\
      match rest with
      | [] => b = E /\ b - a <= B
      | _ :: _ => b - a = B /\ chained B E b rest
      end
  end.

(** A reverse iterator over the chain [chain], bound for height [S] in
    batches of [B], with its cursor at height [c] and its latch open. *)
Definition reverse_at {World} (cl : EthClient World) (cb : OnBlocksFunc World)
  (ctx0 : context_Context World) (chain : Z -> Header) (S B : Z)
  (i : BlockBatchIterator World) (c : Z) : Prop :=
  client i = cl /\ onBlocks i = cb /\ ctx i = ctx0 /\ startHeight i = S /\
  blocksReadPerEpoch i = B /\ isEnd i = false /\ current i = chain c.

(** Batches that chain downwards from height [e] to height [S] in steps
    of [B]: each pair ends where the one before started, every pair but
    the last spans exactly [B], the last one starts at [S] and spans at
    most [B].  With no pair at all, [e] is [S] already. *)
Fixpoint chained_down (B S e : Z) (pairs : list (Z * Z)) : Prop :=
  match pairs with
  | [] => e = S
  | (a, b) :: rest =>
      b = e /\
      match rest with
      | [] => a = S /\ b - a <= B
      | _ :: _ => b - a = B /\ chained_down B S a rest
      end
  end.

(** The waits of a log. *)
Fixpoint waits (evs : list Event) : list Z :=
  match evs with
  | [] => []
  | EvBackOff d :: rest => d :: waits rest
  | _ :: rest => waits rest
  end.

(** ** A concrete world

    A node whose chain has, at height [n], the block of digest
    [n + 10000]; once the world is [reorged] the node is on a fork whose
    blocks have the digests [n + 20000] and it no longer knows the old
    ones.  The context is canceled when the flag of the world says so. *)
Module Scenario.

Record world : Type := mkWorld {
  canceled : bool;
  reorged : bool
}.

Definition calm : world := mkWorld false false.
Definition after_reorg : world := mkWorld false true.

Definition canon (n : Z) : Header := mkHeader n (n + 10000).
Definition forked (n : Z) : Header := mkHeader n (n + 20000).

Definition head : Z := 1000.

Definition node : EthClient world := {|
  ChainID := fun w => (w, Ok 167);
  BlockNumber := fun w => (w, Ok head);
  HeaderByNumber := fun n w =>
    let n := match n with Some n => n | None => head end in
    (w, Ok (if reorged w then forked n else canon n));
  HeaderByHash := fun h w =>
    if reorged w
    then if 20000 <=? h then (w, (Some (forked (h - 20000)), None))
         else (w, (None, Some ethereum_NotFound))
    else if h <? 20000 then (w, (Some (canon (h - 10000)), None))
         else (w, (None, Some ethereum_NotFound))
|}.

(** A node that stays on the first chain whatever happens. *)
Definition steady : EthClient world := {|
  ChainID := fun w => (w, Ok 167);
  BlockNumber := fun w => (w, Ok head);
  HeaderByNumber := fun n w =>
    (w, Ok (canon match n with Some n => n | None => head end));
  HeaderByHash := fun h w => (w, (Some (canon (h - 10000)), None))
|}.

Definition background : context_Context world :=
  fun w => if canceled w then Some context_Canceled else None.

(** A context nobody cancels. *)
Definition never : context_Context world := fun _ => None.

(** Succeeds, uses no capability. *)
Definition plain : OnBlocksFunc world :=
  fun _ _ w => (w, ([], None)).

(** Moves the cursor to the header at height 150, succeeds. *)
Definition overriding : OnBlocksFunc world :=
  fun _ _ w => (w, ([CallUpdateCurrent (Some (canon 150))], None)).

(** Moves the cursor to the header at height 150, fails. *)
Definition stumbling : OnBlocksFunc world :=
  fun _ _ w => (w, ([CallUpdateCurrent (Some (canon 150))],
                    Some (errors_New "no luck"))).

(** Fails, uses no capability. *)
Definition failing : OnBlocksFunc world :=
  fun _ _ w => (w, ([], Some (errors_New "no luck"))).

(** Asks to end, succeeds. *)
Definition ending : OnBlocksFunc world :=
  fun _ _ w => (w, ([CallEnd], None)).

(** Fails with a permanent error while the context gets canceled. *)
Definition giving_up : OnBlocksFunc world :=
  fun _ _ w => (mkWorld true (reorged w),
                ([], Some (backoff_Permanent (errors_New "giving up")))).

Definition no_wait : Z -> world -> world := fun _ w => w.

Definition config (cl : EthClient world) (cb : OnBlocksFunc world) (s : Z)
  (e : option Z) (batch : option Z) (rev : bool) (depth : option Z)
  : BlockBatchIteratorConfig world :=
  {| Client := Some cl;
     MaxBlocksReadPerEpoch := batch;
     StartHeight := Some s;
     EndHeight := e;
     OnBlocks := Some cb;
     Reverse := rev;
     ReorgRewindDepth := depth;
     RetryInterval := None |}.

(** The iterator the constructor builds from such a configuration with
    an end height, in the calm world. *)
Definition constructed_with (ctx0 : context_Context world)
  (cl : EthClient world) (cb : OnBlocksFunc world)
  (s e batch : Z) (rev : bool) : BlockBatchIterator world :=
  {| ctx := ctx0;
     client := cl;
     chainID := 167;
     blocksReadPerEpoch := batch;
     startHeight := s;
     endHeight := Some e;
     current := canon (if rev then e else s);
     onBlocks := cb;
     isEnd := false;
     reverse := rev;
     reorgRewindDepth := 0;
     retryInterval := DefaultRetryInterval |}.

Definition constructed := constructed_with background.

(** The forward and the reverse iterator over the blocks 100 to 250, in
    batches of 100. *)
Definition it_fwd (cb : OnBlocksFunc world) : BlockBatchIterator world :=
  constructed node cb 100 250 100 false.

Definition it_rev (cb : OnBlocksFunc world) : BlockBatchIterator world :=
  constructed node cb 100 250 100 true.

End Scenario.

(** * The SGX proof producer (prover/proof_producer/sgx_producer.go)

    The producer asks a raiko-host service for a proof over HTTP and polls
    it until the proof is there.  The HTTP client, the JSON codec, the hex
    decoder and the declarations of the package that live in other files
    are taken as an environment; the control flow is the source's. *)
Module Producer.

(** [s[n:]] on a Go string: a run-time panic when [s] is shorter. *)
Definition slice_from (n : nat) (s : string) : option string :=
  if (String.length s <? n)%nat then None
  else Some (substring n (String.length s - n) s).

(** How a call came out: it returned, it panicked, or the model ran out
    of fuel. *)
Inductive exit (A : Type) : Type :=
| Returned (a : A)
| Panicked
| OutOfFuel.
Arguments Returned {A} a.
Arguments Panicked {A}.
Arguments OutOfFuel {A}.

Record RaikoHostOutput : Type := {
  out_Type : string;
  out_Proof : string
}.

(** The anonymous struct of the [error] member. *)
Record ResponseError : Type := {
  Code : option Z;
  Message : string
}.

Record SGXRequestProofBodyResponse : Type := {
  resp_JsonRPC : string;
  resp_ID : option Z;
  Result : option RaikoHostOutput;
  Error_ : option ResponseError
}.

Record SGXRequestProofBodyParam : Type := {
  param_Type : string;
  Block : option Z;
  L2RPC : string;
  L1RPC : string;
  Prover : string;
  param_Graffiti : string
}.

Record SGXRequestProofBody : Type := {
  JsonRPC : string;
  ID : option Z;
  Method : string;
  Params : list SGXRequestProofBodyParam
}.

Section WithWorld.

Context {World Address Meta : Type}.

(** The fields of [ProofRequestOptions] (declared in another file) that
    the producer reads. *)
Record ProofRequestOptions : Type := {
  BlockID : option Z;
  ProverAddress : Address;
  Graffiti : string
}.

(** [ProofWithHeader] (declared in another file), as the producer fills
    it; a nil [Proof] is [None]. *)
Record ProofWithHeader : Type := {
  pwh_BlockID : option Z;
  pwh_Header : Header;
  pwh_Meta : Meta;
  pwh_Proof : option (list Byte.byte);
  pwh_Degree : Z;
  pwh_Opts : ProofRequestOptions;
  pwh_Tier : Z
}.

(** [*http.Response]: the status code, and the body as something to read
    and to close. *)
Record Response : Type := {
  StatusCode : Z;
  ReadAll : World -> World * result string;
  Close : World -> World
}.

(** What the producer does to the outside, with what came back. *)
Inductive Event : Type :=
| EvPost (url contentType body : string) (ok : option Z)
| EvReadAll (r : result string)
| EvClose
| EvWait (interval : Z)
| EvDummy (tier : Z) (r : option error)
| EvSend (p : ProofWithHeader)
| EvCounterInc.

Definition P (A : Type) : Type := World -> World * list Event * A.

Definition ret {A} (a : A) : P A := fun w => (w, [], a).

Definition bind {A B} (c : P A) (k : A -> P B) : P B :=
  fun w =>
    let '(w1, evs1, a) := c w in
    let '(w2, evs2, b) := k a w1 in
    (w2, evs1 ++ evs2, b).

Notation "x <- c1 ;; c2" := (bind c1 (fun x => c2))
  (at level 61, c1 at next level, right associativity).

(** The libraries and the declarations of other files. *)
Record Env : Type := {
  json_Marshal : SGXRequestProofBody -> result string;
  json_Unmarshal : string -> result SGXRequestProofBodyResponse;
  http_Post : string -> string -> string -> World -> World * result Response;
  common_Hex2Bytes : string -> list Byte.byte;
  address_Hex : Address -> string;
  timer_wait : Z -> World -> World;
  errProofGenerating : error;
  proofPollingInterval : Z;
  TierSgxID : Z
}.

(** [DummyProofProducer.RequestProof] (another file): it gets the tier
    and answers with an error or nil. *)
Definition DummyRequestProof : Type :=
  ProofRequestOptions -> option Z -> Meta -> Header -> Z -> World -> World * option error.

Record SGXProofProducer : Type := {
  RaikoHostEndpoint : string;
  L1Endpoint : string;
  L2Endpoint : string;
  DummyProofProducer : option DummyRequestProof
}.

Definition NewSGXProducer (raikoHostEndpoint l1Endpoint l2Endpoint : string)
  : SGXProofProducer * option error :=
  ({| RaikoHostEndpoint := raikoHostEndpoint;
      L1Endpoint := l1Endpoint;
      L2Endpoint := l2Endpoint;
      DummyProofProducer := None |}, None).

Variable env : Env.

(** [Tier], [Cancellable], [Cancel] *)
Definition Tier (s : SGXProofProducer) : Z := TierSgxID env.
Definition Cancellable (s : SGXProofProducer) : bool := false.
Definition Cancel (s : SGXProofProducer) (blockID : option Z) : option error := None.

Definition call_Post (url contentType body : string) : P (result Response) :=
  fun w =>
    let '(w', r) := http_Post env url contentType body w in
    (w', [EvPost url contentType body
                 match r with Ok res => Some (StatusCode res) | Err _ => None end], r).

Definition call_ReadAll (res : Response) : P (result string) :=
  fun w => let '(w', r) := ReadAll res w in (w', [EvReadAll r], r).

Definition call_Close (res : Response) : P unit :=
  fun w => (Close res w, [EvClose], tt).

(** The body that [requestProof] sends; [None] when cutting the [0x] off
    [ProverAddress.Hex()] panics. *)
Definition request_body (s : SGXProofProducer) (opts : ProofRequestOptions)
  : option SGXRequestProofBody :=
  match slice_from 2 (address_Hex env (ProverAddress opts)) with
  | None => None
  | Some prover =>
      Some {| JsonRPC := "2.0";
              ID := Some 1;
              Method := "proof";
              Params := [ {| param_Type := "Sgx";
                             Block := BlockID opts;
                             L2RPC := L2Endpoint s;
                             L1RPC := L1Endpoint s;
                             Prover := prover;
                             param_Graffiti := Graffiti opts |} ] |}
  end.

(** [requestProof]: the deferred [res.Body.Close()] runs on every way out
    once the post has succeeded. *)
Definition requestProof (s : SGXProofProducer) (opts : ProofRequestOptions)
  : P (exit (result (option RaikoHostOutput))) :=
  match request_body s opts with
  | None => ret Panicked
  | Some reqBody =>
  match json_Marshal env reqBody with
  | Err e => ret (Returned (Err e))
  | Ok jsonValue =>
  r <- call_Post (RaikoHostEndpoint s) "application/json" jsonValue ;;
  match r with
  | Err e => ret (Returned (Err e))
  | Ok res =>
  out <- (if negb (StatusCode res =? 200)
          then ret (Err (errors_New ("failed to request proof, id: "
                                     ++ format_big_ptr (BlockID opts)
                                     ++ ", statusCode: "
                                     ++ format_big (StatusCode res))))
          else
          r <- call_ReadAll res ;;
          match r with
          | Err e => ret (Err e)
          | Ok resBytes =>
          match json_Unmarshal env resBytes with
          | Err e => ret (Err e)
          | Ok output =>
          match Error_ output with
          | Some err => ret (Err (errors_New (Message err)))
          | None => ret (Ok (Result output))
          end end end) ;;
  _ <- call_Close res ;;
  ret (Returned out)
  end end end.

(** The closure [callProverDaemon] hands to [backoff.Retry], over the
    variable [proof] it assigns. *)
Definition poll (ctx : World -> option error) (s : SGXProofProducer)
  (opts : ProofRequestOptions) (proof : option (list Byte.byte))
  : P (option (list Byte.byte) * exit (option error)) :=
  fun w =>
    match ctx w with
    | Some _ => (w, [], (proof, Returned None))
    | None =>
        (r <- requestProof s opts ;;
         match r with
         | Panicked => ret (proof, Panicked)
         | OutOfFuel => ret (proof, OutOfFuel)
         | Returned (Err e) => ret (proof, Returned (Some e))
         | Returned (Ok None) =>
             ret (proof, Returned (Some (errProofGenerating env)))
         | Returned (Ok (Some output)) =>
             match slice_from 2 (out_Proof output) with
             | None => ret (proof, Panicked)
             | Some hex => ret (Some (common_Hex2Bytes env hex), Returned None)
             end
         end) w
    end.

Definition wait (interval : Z) : P unit :=
  fun w => (timer_wait env interval w, [EvWait interval], tt).

(** [backoff.Retry] with a constant back-off, as for the iterator. *)
Fixpoint backoff_Retry {St : Type} (fuel : nat)
  (op : St -> P (St * exit (option error))) (interval : Z) (st : St)
  : P (St * exit (option error)) :=
  match fuel with
  | O => ret (st, OutOfFuel)
  | S fuel' =>
      x <- op st ;;
      let '(st', r) := x in
      match r with
      | Returned None => ret (st', Returned None)
      | Returned (Some e) =>
          match as_Permanent e with
          | Some inner => ret (st', Returned (Some inner))
          | None => _ <- wait interval ;; backoff_Retry fuel' op interval st'
          end
      | Panicked => ret (st', Panicked)
      | OutOfFuel => ret (st', OutOfFuel)
      end
  end.

Definition callProverDaemon (fuel : nat) (ctx : World -> option error)
  (s : SGXProofProducer) (opts : ProofRequestOptions)
  : P (exit (option (list Byte.byte) * option error)) :=
  x <- backoff_Retry fuel (poll ctx s opts) (proofPollingInterval env) None ;;
  let '(proof, r) := x in
  match r with
  | Returned (Some e) => ret (Returned (None, Some e))
  | Returned None => ret (Returned (proof, None))
  | Panicked => ret Panicked
  | OutOfFuel => ret OutOfFuel
  end.

Definition call_Dummy (d : DummyRequestProof) (opts : ProofRequestOptions)
  (blockID : option Z) (meta : Meta) (header : Header) (tier : Z)
  : P (option error) :=
  fun w => let '(w', r) := d opts blockID meta header tier w in
           (w', [EvDummy tier r], r).

Definition send (p : ProofWithHeader) : P unit := fun w => (w, [EvSend p], tt).

Definition counter_inc : P unit := fun w => (w, [EvCounterInc], tt).

(** [RequestProof] *)
Definition RequestProof (fuel : nat) (s : SGXProofProducer)
  (ctx : World -> option error) (opts : ProofRequestOptions)
  (blockID : option Z) (meta : Meta) (header : Header)
  : P (exit (option error)) :=
  match DummyProofProducer s with
  | Some d =>
      r <- call_Dummy d opts blockID meta header (Tier s) ;;
      ret (Returned r)
  | None =>
      r <- callProverDaemon fuel ctx s opts ;;
      match r with
      | Panicked => ret Panicked
      | OutOfFuel => ret OutOfFuel
      | Returned (_, Some err) => ret (Returned (Some err))
      | Returned (proof, None) =>
          _ <- send {| pwh_BlockID := blockID;
                       pwh_Header := header;
                       pwh_Meta := meta;
                       pwh_Proof := proof;
                       pwh_Degree := 0;
                       pwh_Opts := opts;
                       pwh_Tier := Tier s |} ;;
          _ <- counter_inc ;;
          ret (Returned None)
      end
  end.

(** ** Vocabulary of the properties *)

(** The waits of a log. *)
Fixpoint waits (evs : list Event) : list Z :=
  match evs with
  | [] => []
  | EvWait d :: rest => d :: waits rest
  | _ :: rest => waits rest
  end.

(** The proofs sent in a log. *)
Fixpoint sent (evs : list Event) : list ProofWithHeader :=
  match evs with
  | [] => []
  | EvSend p :: rest => p :: sent rest
  | _ :: rest => sent rest
  end.

(** A proof decoded from the response that ends the log [evs]. *)
Definition decoded_from (s : SGXProofProducer) (evs : list Event)
  (p : option (list Byte.byte)) : Prop :=
  exists pre body bytes o out hex,
    evs = pre ++ [EvPost (RaikoHostEndpoint s) "application/json" body (Some 200);
                  EvReadAll (Ok bytes); EvClose] /\
    json_Unmarshal env bytes = Ok o /\ Error_ o = None /\
    Result o = Some out /\
    slice_from 2 (out_Proof out) = Some hex /\
    p = Some (common_Hex2Bytes env hex).

End WithWorld.

Arguments Env World Address : clear implicits.
Arguments SGXProofProducer World Address Meta : clear implicits.
Arguments ProofRequestOptions Address : clear implicits.

End Producer.

(** ** More of the concrete world *)
Module Cases.

Import Scenario.

(** A node whose lookup by hash breaks down. *)
Definition broken : EthClient world := {|
  ChainID := fun w => (w, Ok 167);
  BlockNumber := fun w => (w, Ok head);
  HeaderByNumber := fun n w =>
    (w, Ok (canon match n with Some n => n | None => head end));
  HeaderByHash := fun h w => (w, (None, Some (errors_New "connection refused")))
|}.

(** Returns [io.EOF], wrapped. *)
Definition quitting : OnBlocksFunc world :=
  fun _ _ w => (w, ([], Some (fmt_Errorf "done: " io_EOF))).

(** Succeeds while the context gets canceled. *)
Definition canceling : OnBlocksFunc world :=
  fun _ _ w => (mkWorld true (reorged w), ([], None)).

(** Fails while the context gets canceled. *)
Definition failing_canceled : OnBlocksFunc world :=
  fun _ _ w => (mkWorld true (reorged w), ([], Some (errors_New "no luck"))).

(** The forward iterator of the scenario with a rewind depth of 20. *)
Definition it_deep : BlockBatchIterator world :=
  {| ctx := background;
     client := node;
     chainID := 167;
     blocksReadPerEpoch := 100;
     startHeight := 100;
     endHeight := Some 250;
     current := canon 100;
     onBlocks := plain;
     isEnd := false;
     reverse := false;
     reorgRewindDepth := 20;
     retryInterval := DefaultRetryInterval |}.


End Cases.

(** ** A raiko host that needs two polls *)
Module ProducerScenario.

Import Producer.

(** The world counts the posts made so far. *)
Definition world : Type := nat.

Definition prover : string := "0x0000777735367b36bC9B61C50022d9D0700dB4Ec".

Definition parse (body : string) : result SGXRequestProofBodyResponse :=
  if String.eqb body "generating"
  then Ok {| resp_JsonRPC := "2.0"; resp_ID := Some 1;
             Result := None; Error_ := None |}
  else if String.eqb body "garbage"
  then Err (errors_New "unexpected end of JSON input")
  else Ok {| resp_JsonRPC := "2.0"; resp_ID := Some 1;
             Result := Some {| out_Type := "Sgx"; out_Proof := body |};
             Error_ := None |}.

(** The first two posts find the proof still being generated; then it
    is there. *)
Definition host : Env world unit := {|
  json_Marshal := fun _ => Ok "request";
  json_Unmarshal := parse;
  http_Post := fun _ _ _ n =>
    (S n, Ok {| StatusCode := 200;
                ReadAll := fun w => (w, Ok (if (n <? 2)%nat then "generating"
                                            else "0xc0de"));
                Close := fun w => w |});
  common_Hex2Bytes := list_byte_of_string;
  address_Hex := fun _ => prover;
  timer_wait := fun _ w => w;
  errProofGenerating := errors_New "proof is generating";
  proofPollingInterval := 10000000000;
  TierSgxID := 200
|}.

(** A host that answers with a proof of one character. *)
Definition curt : Env world unit := {|
  json_Marshal := fun _ => Ok "request";
  json_Unmarshal := parse;
  http_Post := fun _ _ _ n =>
    (S n, Ok {| StatusCode := 200;
                ReadAll := fun w => (w, Ok "0");
                Close := fun w => w |});
  common_Hex2Bytes := list_byte_of_string;
  address_Hex := fun _ => prover;
  timer_wait := fun _ w => w;
  errProofGenerating := errors_New "proof is generating";
  proofPollingInterval := 10000000000;
  TierSgxID := 200
|}.

Definition producer : SGXProofProducer world unit unit :=
  fst (NewSGXProducer "http://raiko" "http://l1" "http://l2").

Definition options : ProofRequestOptions unit :=
  {| BlockID := Some 32; ProverAddress := tt; Graffiti := "" |}.

Definition live : world -> option error := fun _ => None.
Definition dead : world -> option error := fun _ => Some context_Canceled.

End ProducerScenario.

(** * Properties *)

Section Properties.

Context {World : Type}.
Variable timer_wait : Z -> World -> World.

Implicit Types (i : BlockBatchIterator World) (w : World) (evs : list Event).

(** ** Machine integers *)

Lemma Uint64_small (x : Z) : is_uint64 x -> Uint64 x = x.
Proof.
  unfold is_uint64, Uint64, two64. intros H.
  rewrite Z.abs_eq by lia. apply Z.mod_small. lia.
Qed.

Lemma Uint64_range (x : Z) : is_uint64 (Uint64 x).
Proof. unfold is_uint64, Uint64, two64. apply Z.mod_pos_bound. lia. Qed.

Lemma sub64_exact (a b : Z) : is_uint64 a -> is_uint64 b -> b <= a -> sub64 a b = a - b.
Proof. unfold is_uint64, sub64, two64. intros. apply Z.mod_small. lia. Qed.

Lemma add64_exact (a b : Z) : 0 <= a -> 0 <= b -> a + b < two64 -> add64 a b = a + b.
Proof. unfold add64, two64. intros. apply Z.mod_small. lia. Qed.

(** ** The capabilities *)

Lemma actions_current acts : forall i,
  current (fold_left apply_action acts i) =
  match last_update acts with
  | Some h => h
  | None => current i
  end.
Proof.
  induction acts as [|a acts IH]; intros i; simpl; [reflexivity|].
  rewrite IH. destruct a as [[h|]|]; simpl; destruct (last_update acts); reflexivity.
Qed.

Lemma actions_isEnd acts : forall i,
  isEnd (fold_left apply_action acts i) = isEnd i || calls_end acts.
Proof.
  induction acts as [|a acts IH]; intros i; simpl.
  - now rewrite orb_false_r.
  - rewrite IH. destruct a as [[h|]|]; simpl; try reflexivity.
    now rewrite orb_true_r.
Qed.

Lemma In_calls_end acts : In CallEnd acts <-> calls_end acts = true.
Proof.
  unfold calls_end. rewrite existsb_exists. split.
  - intros H. exists CallEnd. now split.
  - intros [[h|] [H E]]; [discriminate | exact H].
Qed.

Lemma actions_same_config acts : forall i, same_config i (fold_left apply_action acts i).
Proof.
  induction acts as [|a acts IH]; intros i; simpl.
  - unfold same_config. repeat split; reflexivity.
  - specialize (IH (apply_action i a)). unfold same_config in *.
    destruct a as [[h|]|]; simpl in IH; exact IH.
Qed.

(** ** The reorg check *)

Ltac break_match :=
  match goal with
  | |- context [match ?x with _ => _ end] =>
      lazymatch x with
      | context [match _ with _ => _ end] => fail
      | _ => destruct x eqn:?
      end
  end.

Ltac unfold_calls :=
  unfold call_onBlocks, call_HeaderByNumber, call_HeaderByHash,
         call_BlockNumber, call_ChainID, bind, ret in *.

(** The lookup by hash found the cursor: nothing else happens. *)
Lemma ensure_found i w w1 cur err :
  HeaderByHash (client i) (Hash (current i)) w = (w1, (Some cur, err)) ->
  (forall e, err = Some e -> is_not_found e = true) ->
  ensureCurrentNotReorged i w =
  (w1, [EvHeaderByHash (Hash (current i)) (Some cur, err)], (i, None)).
Proof.
  intros H Hnf. unfold ensureCurrentNotReorged. unfold_calls. rewrite H.
  destruct err as [e|]; [rewrite (Hnf e eq_refl)|]; reflexivity.
Qed.

(** The lookup by hash found nothing: the cursor is rewound. *)
Lemma ensure_missing i w w1 err :
  HeaderByHash (client i) (Hash (current i)) w = (w1, (None, err)) ->
  (forall e, err = Some e -> is_not_found e = true) ->
  ensureCurrentNotReorged i w =
  (let '(w2, evs, r) := rewindOnReorgDetected i w1 in
   (w2, EvHeaderByHash (Hash (current i)) (None, err) :: evs, r)).
Proof.
  intros H Hnf. unfold ensureCurrentNotReorged. unfold_calls. rewrite H.
  destruct err as [e|]; [rewrite (Hnf e eq_refl)|]; simpl;
    destruct (rewindOnReorgDetected i w1) as [[w2 evs] r]; reflexivity.
Qed.

(** The check touches nothing but the cursor, and only when the lookup
    by hash found nothing; it makes that lookup and, to rewind, one lookup
    by number. *)
Lemma ensure_inv i w w' evs i' err :
  ensureCurrentNotReorged i w = (w', evs, (i', err)) ->
  same_config i i' /\ isEnd i' = isEnd i /\
  exists r tl,
    evs = EvHeaderByHash (Hash (current i)) r :: tl /\
    (forall ev, In ev tl -> exists n r2, ev = EvHeaderByNumber n r2) /\
    (forall cur, fst r = Some cur -> i' = i /\ tl = []) /\
    (err <> None -> i' = i).
Proof.
  unfold ensureCurrentNotReorged, rewindOnReorgDetected. unfold_calls.
  repeat (cbv beta; break_match); simpl; intros H; inversion H; subst; clear H;
    (split; [unfold same_config; simpl; repeat split; reflexivity|]);
    (split; [reflexivity|]);
    do 2 eexists; (split; [reflexivity|]); simpl;
    (split; [intros ev Hev; repeat destruct Hev as [Hev|Hev];
             try contradiction; subst; eauto|]);
    (split; [intros c Hc; try discriminate; split; reflexivity
            | intros Hn; try reflexivity; try (exfalso; apply Hn; reflexivity)]).
Qed.

(** ** Idempotent termination *)

(** An epoch on an exhausted range, when the reorg check finds the
    cursor: forward with a configured end height, forward towards the
    head of the chain, and reverse. *)
Lemma iter_exhausted i w w1 cur err dest :
  HeaderByHash (client i) (Hash (current i)) w = (w1, (Some cur, err)) ->
  (forall e, err = Some e -> is_not_found e = true) ->
  endHeight i = Some dest ->
  dest <= Uint64 (Number (current i)) ->
  iter i w = (w1, [EvHeaderByHash (Hash (current i)) (Some cur, err)],
              (i, Some io_EOF)).
Proof.
  intros Hh Hnf Hd Hge. unfold iter, bind.
  rewrite (ensure_found i w w1 cur err Hh Hnf), Hd. simpl.
  destruct (Z.geb_spec (Uint64 (Number (current i))) dest); [reflexivity | lia].
Qed.

Lemma iter_exhausted_at_head i w w1 w2 cur err dest :
  HeaderByHash (client i) (Hash (current i)) w = (w1, (Some cur, err)) ->
  (forall e, err = Some e -> is_not_found e = true) ->
  endHeight i = None ->
  BlockNumber (client i) w1 = (w2, Ok dest) ->
  dest <= Uint64 (Number (current i)) ->
  iter i w = (w2, [EvHeaderByHash (Hash (current i)) (Some cur, err);
                   EvBlockNumber (Ok dest)], (i, Some io_EOF)).
Proof.
  intros Hh Hnf Hd Hb Hge. unfold iter, bind.
  rewrite (ensure_found i w w1 cur err Hh Hnf), Hd.
  unfold call_BlockNumber. rewrite Hb. simpl.
  destruct (Z.geb_spec (Uint64 (Number (current i))) dest); [reflexivity | lia].
Qed.

Lemma reverseIter_exhausted i w w1 cur err :
  HeaderByHash (client i) (Hash (current i)) w = (w1, (Some cur, err)) ->
  (forall e, err = Some e -> is_not_found e = true) ->
  Uint64 (Number (current i)) <= startHeight i ->
  reverseIter i w = (w1, [EvHeaderByHash (Hash (current i)) (Some cur, err)],
                     (i, Some io_EOF)).
Proof.
  intros Hh Hnf Hle. unfold reverseIter, bind.
  rewrite (ensure_found i w w1 cur err Hh Hnf). simpl.
  destruct (Z.leb_spec (Uint64 (Number (current i))) (startHeight i));
    [reflexivity | lia].
Qed.

(** C5, as amended: an epoch started on an exhausted range does make a
    network call, the lookup by hash of the reorg check (and the query of
    the head when no end height is configured).  When that lookup finds
    the cursor, the epoch signals range-exhausted again with no lookup by
    number, no callback and the iterator unchanged. *)
Theorem exhausted_epoch_checks_reorg_only i w w1 cur err :
  HeaderByHash (client i) (Hash (current i)) w = (w1, (Some cur, err)) ->
  (forall e, err = Some e -> is_not_found e = true) ->
  let check := EvHeaderByHash (Hash (current i)) (Some cur, err) in
  (forall dest, endHeight i = Some dest ->
     dest <= Uint64 (Number (current i)) ->
     iter i w = (w1, [check], (i, Some io_EOF))) /\
  (forall dest w2, endHeight i = None ->
     BlockNumber (client i) w1 = (w2, Ok dest) ->
     dest <= Uint64 (Number (current i)) ->
     iter i w = (w2, [check; EvBlockNumber (Ok dest)], (i, Some io_EOF))) /\
  (Uint64 (Number (current i)) <= startHeight i ->
     reverseIter i w = (w1, [check], (i, Some io_EOF))).
Proof.
  intros Hh Hnf check. repeat split.
  - intros dest Hd Hge. now apply iter_exhausted with (dest := dest).
  - intros dest w2 Hd Hb Hge. now apply iter_exhausted_at_head with (w1 := w1).
  - intros Hle. now apply reverseIter_exhausted.
Qed.

(** ** The reverse batch *)

Lemma reverseIter_startHeight_spec (h B start : Z) :
  is_uint64 h -> is_uint64 B ->
  let cand := if B <? h then h - B else 0 in
  is_uint64 cand /\
  reverseIter_startHeight h B start =
  if cand <=? start then (start, true) else (cand, false).
Proof.
  intros Hh HB cand. unfold reverseIter_startHeight. subst cand.
  destruct (Z.leb_spec h B), (Z.ltb_spec B h); try lia.
  - split; [unfold is_uint64, two64 in *; lia | reflexivity].
  - rewrite sub64_exact by (auto; lia).
    split; [unfold is_uint64, two64 in *; lia | reflexivity].
Qed.

(** C8: in a reverse epoch whose cursor, once the reorg check is
    through, is at height [h], with batch size [B], the candidate start is
    [h - B] when [h > B] and 0 otherwise, never a wrapped difference; the
    header the epoch fetches is the one at that candidate, or at the
    configured start height when the candidate does not exceed it, and in
    that case the epoch is the last: after a callback that succeeded it
    signals range-exhausted, where an epoch that is not the last signals
    continue unless the latch is set. *)
Theorem reverse_epoch_start_candidate i w w1 evs1 i1 :
  is_uint64 (blocksReadPerEpoch i) ->
  ensureCurrentNotReorged i w = (w1, evs1, (i1, None)) ->
  startHeight i < Uint64 (Number (current i1)) ->
  let h := Uint64 (Number (current i1)) in
  let B := blocksReadPerEpoch i in
  let cand := if B <? h then h - B else 0 in
  let final := cand <=? startHeight i in
  let target := if final then startHeight i else cand in
  0 <= cand <= h /\
  reverseIter_startHeight h B (startHeight i) = (target, final) /\
  exists w' r evs i' res,
    reverseIter i w =
    (w', evs1 ++ EvHeaderByNumber (Some target) r :: evs, (i', res)) /\
    (forall s e acts, In (EvOnBlocks s e acts None) evs ->
       res = Some (if final || isEnd i' then io_EOF else errContinue)).
Proof.
  intros HB Hens Hlt h B cand final target.
  destruct (ensure_inv _ _ _ _ _ _ Hens) as [Hcfg _].
  destruct Hcfg as (_ & _ & _ & Hbatch & Hstart & _).
  pose proof (Uint64_range (Number (current i1))) as Hr. fold h in Hr.
  destruct (reverseIter_startHeight_spec h B (startHeight i) Hr HB) as [Hc Hs].
  fold cand in Hc, Hs. fold final in Hs.
  assert (Ht : reverseIter_startHeight h B (startHeight i) = (target, final)).
  { rewrite Hs. subst target. destruct final; reflexivity. }
  split.
  { subst cand. unfold is_uint64 in *. destruct (Z.ltb_spec B h); lia. }
  split; [exact Ht|].
  unfold reverseIter, bind. rewrite Hens, Hbatch, Hstart.
  fold h B. destruct (Z.leb_spec h (startHeight i)); [lia|].
  rewrite Ht. unfold_calls.
  destruct (HeaderByNumber (client i1) (Some target) w1) as [w2 [sh|e]].
  - destruct (onBlocks i1 sh (current i1) w2) as [w3 [acts [e|]]]; simpl.
    + do 5 eexists. split; [reflexivity|].
      intros s0 e0 acts0 [Hev|[]]. discriminate.
    + destruct final; simpl.
      * do 5 eexists. split; [reflexivity|]. reflexivity.
      * destruct (isEnd (fold_left apply_action acts i1)) eqn:Hlatch; simpl;
          do 5 eexists; (split; [reflexivity|]); simpl; rewrite Hlatch;
          reflexivity.
  - simpl. do 5 eexists. split; [reflexivity|]. intros s0 e0 acts0 [].
Qed.

(** ** Construction *)

(** C10: a forward construction that got past its start-header lookup
    looks up a second header, at the configured end height or, with none
    configured, at the latest head; it fails (wrapping the error) when that
    lookup fails, and otherwise seeds the cursor with the start header,
    the end header being dropped. *)
Theorem forward_construction_end_lookup
  (ctx0 : context_Context World) (cfg : BlockBatchIteratorConfig World)
  cl cb s w w1 w2 w3 cid sh r :
  Reverse cfg = false ->
  Client cfg = Some cl -> OnBlocks cfg = Some cb -> StartHeight cfg = Some s ->
  (forall e, EndHeight cfg = Some e -> s <= e) ->
  ChainID cl w = (w1, Ok cid) ->
  HeaderByNumber cl (Some s) w1 = (w2, Ok sh) ->
  HeaderByNumber cl (EndHeight cfg) w2 = (w3, r) ->
  exists res,
    NewBlockBatchIterator ctx0 cfg w =
    (w3, [EvChainID (Ok cid); EvHeaderByNumber (Some s) (Ok sh);
          EvHeaderByNumber (EndHeight cfg) r], res) /\
    match r with
    | Err e => exists prefix, res = Err (fmt_Errorf prefix e)
    | Ok _ => exists it, res = Ok it /\ current it = sh /\ reverse it = false
    end.
Proof.
  intros Hrev Hcl Hcb Hs Hord Hid Hsh Heh.
  unfold NewBlockBatchIterator. rewrite Hcl, Hcb, Hs, Hrev. unfold_calls.
  rewrite Hid.
  assert (Hgt : match EndHeight cfg with Some e => s >? e | None => false end = false).
  { destruct (EndHeight cfg) as [e|] eqn:He; [|reflexivity].
    specialize (Hord e eq_refl). destruct (Z.gtb_spec s e); [lia | reflexivity]. }
  rewrite Hgt, Hsh. cbn [andb]. rewrite Heh.
  destruct r as [eh|e]; simpl; eexists; (split; [reflexivity|]).
  - eexists. repeat split.
  - eexists. reflexivity.
Qed.

(** C4, as amended: with reverse mode and no end height construction
    always fails and never looks up an end header, but the missing end
    height is reported only after the chain ID and the start header have
    been fetched, both with success. *)
Theorem reverse_without_end_height_fails
  (ctx0 : context_Context World) (cfg : BlockBatchIteratorConfig World) w :
  Reverse cfg = true -> EndHeight cfg = None ->
  exists w' evs e,
    NewBlockBatchIterator ctx0 cfg w = (w', evs, Err e) /\
    (forall r, ~ In (EvHeaderByNumber None r) evs) /\
    (e = errors_New "missing end height" <->
     exists cid s sh,
       StartHeight cfg = Some s /\
       evs = [EvChainID (Ok cid); EvHeaderByNumber (Some s) (Ok sh)]).
Proof.
  intros Hrev Hend. unfold NewBlockBatchIterator. rewrite Hrev, Hend.
  unfold_calls.
  destruct (Client cfg) as [cl|]; [destruct (OnBlocks cfg) as [cb|]|].
  - destruct (ChainID cl w) as [w1 [cid|e1]];
      [destruct (StartHeight cfg) as [s|]|].
    + destruct (HeaderByNumber cl (Some s) w1) as [w2 [sh|e2]]; simpl;
        do 3 eexists; (split; [reflexivity|]); split.
      * intros r [H|[H|[]]]; discriminate.
      * split; [intros _; now exists cid, s, sh | reflexivity].
      * intros r [H|[H|[]]]; discriminate.
      * split; [discriminate | intros (c & s' & h & _ & H); discriminate].
    + simpl. do 3 eexists. split; [reflexivity|]. split.
      * intros r [H|[]]; discriminate.
      * split; [discriminate | intros (c & s' & h & H & _); discriminate].
    + simpl. do 3 eexists. split; [reflexivity|]. split.
      * intros r [H|[]]; discriminate.
      * split; [discriminate | intros (c & s' & h & _ & H); discriminate].
  - do 3 eexists. split; [reflexivity|]. split; [intros r []|].
    split; [discriminate | intros (c & s' & h & _ & H); discriminate].
  - do 3 eexists. split; [reflexivity|]. split; [intros r []|].
    split; [discriminate | intros (c & s' & h & _ & H); discriminate].
Qed.

(** The constructor never reads [ReorgRewindDepth]: every iterator it
    returns rewinds by zero blocks. *)
Lemma constructed_reorgRewindDepth
  (ctx0 : context_Context World) (cfg : BlockBatchIteratorConfig World) w w' evs it :
  NewBlockBatchIterator ctx0 cfg w = (w', evs, Ok it) ->
  reorgRewindDepth it = 0.
Proof.
  unfold NewBlockBatchIterator. unfold_calls.
  repeat (cbv beta; break_match); intros H; inversion H; reflexivity.
Qed.

(** The rewind itself steps back by the depth held in the iterator,
    stopping at height 0. *)
Lemma rewind_target i w :
  is_uint64 (reorgRewindDepth i) ->
  let n := Z.max 0 (Uint64 (Number (current i)) - reorgRewindDepth i) in
  exists w' r,
    HeaderByNumber (client i) (Some n) w = (w', r) /\
    rewindOnReorgDetected i w =
    (w', [EvHeaderByNumber (Some n) r],
     match r with
     | Ok h => (set_current i h, None)
     | Err e => (i, Some e)
     end).
Proof.
  intros Hd n. unfold rewindOnReorgDetected. unfold_calls.
  pose proof (Uint64_range (Number (current i))) as Hr.
  assert (E : (if Uint64 (Number (current i)) <=? reorgRewindDepth i then 0
               else sub64 (Uint64 (Number (current i))) (reorgRewindDepth i)) = n).
  { subst n. destruct (Z.leb_spec (Uint64 (Number (current i))) (reorgRewindDepth i)).
    - lia.
    - rewrite sub64_exact by (auto; lia). lia. }
  rewrite E. destruct (HeaderByNumber (client i) (Some n) w) as [w' [h|e]];
    do 2 eexists; split; reflexivity.
Qed.

(** So an iterator that comes from the constructor, when its cursor is
    lost in a reorg, looks up the height of that very cursor, whatever
    depth was configured. *)
Lemma constructed_rewinds_by_zero
  (ctx0 : context_Context World) (cfg : BlockBatchIteratorConfig World)
  w w' evs it w0 w1 err :
  NewBlockBatchIterator ctx0 cfg w = (w', evs, Ok it) ->
  HeaderByHash (client it) (Hash (current it)) w0 = (w1, (None, err)) ->
  (forall e, err = Some e -> is_not_found e = true) ->
  exists w2 r i' res,
    ensureCurrentNotReorged it w0 =
    (w2, [EvHeaderByHash (Hash (current it)) (None, err);
          EvHeaderByNumber (Some (Uint64 (Number (current it)))) r],
     (i', res)).
Proof.
  intros Hnew Hh Hnf. apply constructed_reorgRewindDepth in Hnew.
  rewrite (ensure_missing it w0 w1 err Hh Hnf).
  assert (Hd : is_uint64 (reorgRewindDepth it)).
  { rewrite Hnew. unfold is_uint64, two64. lia. }
  destruct (rewind_target it w1 Hd) as (w2 & r & _ & Hrew).
  cbv zeta in Hrew. rewrite Hrew, Hnew.
  pose proof (Uint64_range (Number (current it))) as [Hlo _].
  replace (Z.max 0 (Uint64 (Number (current it)) - 0))
    with (Uint64 (Number (current it))) by lia.
  destruct r as [h|e]; now do 4 eexists.
Qed.

(** ** What an epoch does around the callback *)

Section CheckPrefix.

Variables (h0 : Z) (r : option Header * option error) (tl : list Event).
Hypothesis Htl :
  forall ev, In ev tl -> exists n r2, ev = EvHeaderByNumber n r2.

(** The callback is not invoked during the reorg check. *)
Lemma callback_after_check rest s e acts err :
  In (EvOnBlocks s e acts err) ((EvHeaderByHash h0 r :: tl) ++ rest) ->
  In (EvOnBlocks s e acts err) rest.
Proof.
  intros [Hin|Hin]; [discriminate|].
  apply in_app_or in Hin. destruct Hin as [Hin|Hin]; [|exact Hin].
  destruct (Htl _ Hin) as (n & r2 & Hn). discriminate.
Qed.

(** The only lookup by hash of an epoch is the first call of its check. *)
Lemma hash_lookup_is_check rest h r' :
  (forall ev, In ev rest -> forall h' r'', ev <> EvHeaderByHash h' r'') ->
  In (EvHeaderByHash h r') ((EvHeaderByHash h0 r :: tl) ++ rest) ->
  r' = r.
Proof.
  intros Hrest [Hin|Hin].
  - now inversion Hin.
  - apply in_app_or in Hin. destruct Hin as [Hin|Hin].
    + destruct (Htl _ Hin) as (n & r2 & Hn). discriminate.
    + exfalso. exact (Hrest _ Hin _ _ eq_refl).
Qed.

End CheckPrefix.

Ltac no_hash_lookup :=
  let ev := fresh "ev" in
  let Hev := fresh "Hev" in
  intros ev Hev ? ?; simpl in Hev;
  repeat destruct Hev as [Hev|Hev]; try contradiction; subst; discriminate.

Ltac split_epoch Hcb :=
  unfold_calls;
  repeat (cbv beta; break_match); simpl;
  let H := fresh "H" in
  let Hin := fresh "Hin" in
  let Hin' := fresh "Hin'" in
  intros H; inversion H; subst; clear H;
  intros Hin; pose proof (Hcb _ _ _ _ _ Hin) as Hin';
  simpl in Hin'; repeat destruct Hin' as [Hin'|Hin']; try contradiction;
  try discriminate; inversion Hin'; subst; clear Hin'.

(** The state the callback leaves behind in a forward epoch: [i1] is the
    iterator after the reorg check. *)
Lemma iter_callback_inv i w w' evs i' res s e acts err :
  iter i w = (w', evs, (i', res)) ->
  In (EvOnBlocks s e acts err) evs ->
  exists i1,
    same_config i i1 /\ isEnd i1 = isEnd i /\ s = current i1 /\
    (forall h cur e0, In (EvHeaderByHash h (Some cur, e0)) evs -> i1 = i) /\
    let i2 := fold_left apply_action acts i1 in
    match err with
    | Some x => res = Some x /\ i' = i2
    | None =>
        if isEnd i2 then res = Some io_EOF /\ i' = i2
        else i' = set_current i2 e /\
             (res = Some errContinue \/ res = Some io_EOF)
    end.
Proof.
  unfold iter, bind.
  destruct (ensureCurrentNotReorged i w) as [[w1 evs1] [i1 err1]] eqn:E.
  apply ensure_inv in E.
  destruct E as (Hcfg & Hend & r & tl & -> & Htl & Hfound & Herr).
  pose proof (callback_after_check (Hash (current i)) r tl Htl) as Hcb.
  pose proof (hash_lookup_is_check (Hash (current i)) r tl Htl) as Hhash.
  split_epoch Hcb;
    exists i1; (split; [exact Hcfg|]); (split; [exact Hend|]);
    (split; [reflexivity|]);
    (split; [intros h cur e0 Hh; eapply Hhash in Hh; [|no_hash_lookup];
             subst r; now destruct (Hfound cur eq_refl)|]);
    cbv zeta;
    repeat match goal with
           | H : isEnd _ = _ |- _ => rewrite H; clear H
           end; auto.
Qed.

(** The same for a reverse epoch, which has no test of the latch before
    it moves the cursor. *)
Lemma reverseIter_callback_inv i w w' evs i' res s e acts err :
  reverseIter i w = (w', evs, (i', res)) ->
  In (EvOnBlocks s e acts err) evs ->
  exists i1,
    same_config i i1 /\ isEnd i1 = isEnd i /\ e = current i1 /\
    (forall h cur e0, In (EvHeaderByHash h (Some cur, e0)) evs -> i1 = i) /\
    let i2 := fold_left apply_action acts i1 in
    match err with
    | Some x => res = Some x /\ i' = i2
    | None =>
        i' = set_current i2 s /\
        (res = Some errContinue \/ res = Some io_EOF) /\
        (isEnd i2 = true -> res = Some io_EOF)
    end.
Proof.
  unfold reverseIter, bind.
  destruct (ensureCurrentNotReorged i w) as [[w1 evs1] [i1 err1]] eqn:E.
  apply ensure_inv in E.
  destruct E as (Hcfg & Hend & r & tl & -> & Htl & Hfound & Herr).
  pose proof (callback_after_check (Hash (current i)) r tl Htl) as Hcb.
  pose proof (hash_lookup_is_check (Hash (current i)) r tl Htl) as Hhash.
  split_epoch Hcb;
    exists i1; (split; [exact Hcfg|]); (split; [exact Hend|]);
    (split; [reflexivity|]);
    (split; [intros h cur e0 Hh; eapply Hhash in Hh; [|no_hash_lookup];
             subst r; now destruct (Hfound cur eq_refl)|]);
    cbv zeta; auto;
    (split; [reflexivity|]); (split; [auto|]);
    intros Hlatch; try reflexivity;
    match goal with
    | H : negb ?x && negb _ = true |- _ =>
        simpl in H; rewrite Hlatch in H; destruct x; discriminate
    end.
Qed.

Lemma iterFunc_of_inv i w w' evs i' res s e acts err :
  iterFunc_of i i w = (w', evs, (i', res)) ->
  In (EvOnBlocks s e acts err) evs ->
  exists i1,
    same_config i i1 /\ isEnd i1 = isEnd i /\
    (if reverse i then e else s) = current i1 /\
    (forall h cur e0, In (EvHeaderByHash h (Some cur, e0)) evs -> i1 = i) /\
    let i2 := fold_left apply_action acts i1 in
    match err with
    | Some x => res = Some x /\ i' = i2
    | None =>
        (isEnd i2 = true -> res = Some io_EOF) /\
        (if reverse i then i' = set_current i2 s
         else if isEnd i2 then i' = i2 else i' = set_current i2 e)
    end.
Proof.
  unfold iterFunc_of. destruct (reverse i); intros Hrun Hin.
  - destruct (reverseIter_callback_inv _ _ _ _ _ _ _ _ _ _ Hrun Hin)
      as (i1 & H1 & H2 & H3 & H4 & H5).
    exists i1. repeat (split; [assumption|]). cbv zeta in *.
    destruct err; [exact H5|]. tauto.
  - destruct (iter_callback_inv _ _ _ _ _ _ _ _ _ _ Hrun Hin)
      as (i1 & H1 & H2 & H3 & H4 & H5).
    exists i1. repeat (split; [assumption|]). cbv zeta in *.
    destruct err; [exact H5|].
    destruct (isEnd (fold_left apply_action acts i1)).
    + split; [intros _|]; tauto.
    + split; [discriminate | tauto].
Qed.

(** ** Cursor override *)

(** C1, as amended: when the callback has moved the cursor to [H] and
    has not asked to end, [H] is the cursor after the epoch only if the
    callback failed; after a callback that succeeded the cursor is the
    boundary header the epoch fetched (the end header, or the start header
    in reverse mode), whatever [H] was. *)
Theorem update_cursor_kept_on_failure_only i w w' evs i' res s e acts err H :
  iterFunc_of i i w = (w', evs, (i', res)) ->
  In (EvOnBlocks s e acts err) evs ->
  last_update acts = Some H ->
  calls_end acts = false ->
  isEnd i = false ->
  match err with
  | Some x => res = Some x /\ current i' = H
  | None => current i' = (if reverse i then s else e)
  end.
Proof.
  intros Hrun Hin Hup Hend Hlatch.
  destruct (iterFunc_of_inv _ _ _ _ _ _ _ _ _ _ Hrun Hin)
    as (i1 & _ & Hend1 & _ & _ & Hres). cbv zeta in Hres.
  destruct err as [x|].
  - destruct Hres as [-> ->]. split; [reflexivity|].
    now rewrite actions_current, Hup.
  - destruct Hres as [_ Hres].
    rewrite actions_isEnd, Hend1, Hlatch, Hend in Hres. simpl in Hres.
    destruct (reverse i); subst i'; reflexivity.
Qed.

(** ** The driver *)

(** A pending cancellation ends [iterOp] at its next turn, before any
    call. *)
Lemma iterOp_canceled fuel (f : EpochFunc) i w c :
  ctx i w = Some c ->
  iterOp (S fuel) f i w = (w, [], (i, Returned None)).
Proof. intros H. simpl. now rewrite H. Qed.

(** An epoch that signals range-exhausted ends [iterOp] with nil. *)
Lemma iterOp_exhausted fuel (f : EpochFunc) i w w' evs i' e :
  ctx i w = None ->
  f i w = (w', evs, (i', Some e)) ->
  errors_Is e io_EOF = true ->
  iterOp (S fuel) f i w = (w', evs, (i', Returned None)).
Proof.
  intros Hc Hf He. simpl. rewrite Hc. unfold bind. rewrite Hf, He.
  unfold ret. now rewrite app_nil_r.
Qed.

(** An epoch that signals continue is followed by the next turn. *)
Lemma iterOp_continue fuel (f : EpochFunc) i w w' evs i' e :
  ctx i w = None ->
  f i w = (w', evs, (i', Some e)) ->
  errors_Is e io_EOF = false ->
  errors_Is e errContinue = true ->
  iterOp (S fuel) f i w =
  (let '(w2, evs2, r) := iterOp fuel f i' w' in (w2, evs ++ evs2, r)).
Proof.
  intros Hc Hf He Hcont. simpl. rewrite Hc. unfold bind.
  now rewrite Hf, He, Hcont.
Qed.

(** [backoff.Retry] is done as soon as the operation returns nil. *)
Lemma backoff_Retry_nil fuel op interval i w w' evs i' :
  op i w = (w', evs, (i', Returned None)) ->
  backoff_Retry timer_wait (S fuel) op interval i w = (w', evs, (i', Returned None)).
Proof.
  intros H. simpl. unfold bind. rewrite H. unfold ret. now rewrite app_nil_r.
Qed.

Lemma Iter_of_Retry fuel i w w1 evs i1 r :
  backoff_Retry timer_wait fuel (iterOp fuel (iterFunc_of i)) (retryInterval i) i w
  = (w1, evs, (i1, r)) ->
  Iter timer_wait fuel i w =
  (w1, evs, (i1, match r with
                 | Returned None => Returned (ctx i1 w1)
                 | other => other
                 end)).
Proof.
  intros H. unfold Iter, bind. cbv zeta. rewrite H.
  destruct r as [[e|]|]; unfold ret; now rewrite app_nil_r.
Qed.

(** ** Early termination *)

(** C6: once the callback has called end-iteration and returned nil, the
    epoch signals range-exhausted, whatever is left of the range; the loop
    of the driver ends there and [Iter] returns: the log is that of this
    one epoch (no further epoch is begun) and the result is the state of
    the context, nil unless a cancellation is pending.  The latch may also have been set in an
    earlier attempt of the epoch. *)
Theorem end_iteration_stops_driver fuel i w w' evs i' res s e acts :
  ctx i w = None ->
  iterFunc_of i i w = (w', evs, (i', res)) ->
  In (EvOnBlocks s e acts None) evs ->
  In CallEnd acts \/ isEnd i = true ->
  res = Some io_EOF /\
  iterOp (S fuel) (iterFunc_of i) i w = (w', evs, (i', Returned None)) /\
  Iter timer_wait (S fuel) i w = (w', evs, (i', Returned (ctx i w'))).
Proof.
  intros Hc Hrun Hin Hend.
  destruct (iterFunc_of_inv _ _ _ _ _ _ _ _ _ _ Hrun Hin)
    as (i1 & Hcfg & Hend1 & _ & _ & Hres). cbv zeta in Hres.
  destruct Hres as [Hres Hi'].
  assert (Hlatch : isEnd (fold_left apply_action acts i1) = true).
  { rewrite actions_isEnd, Hend1. destruct Hend as [Hend|Hend].
    - apply In_calls_end in Hend. rewrite Hend. apply orb_true_r.
    - now rewrite Hend. }
  specialize (Hres Hlatch). subst res. split; [reflexivity|].
  assert (Hctx : ctx i' = ctx i).
  { pose proof (actions_same_config acts i1) as Ha.
    destruct Hcfg as [Hc1 _], Ha as [Ha _].
    destruct (reverse i); [|rewrite Hlatch in Hi']; subst i'; simpl;
      congruence. }
  assert (Hloop : iterOp (S fuel) (iterFunc_of i) i w
                  = (w', evs, (i', Returned None))).
  { eapply iterOp_exhausted; eauto. }
  split; [exact Hloop|].
  rewrite (Iter_of_Retry (S fuel) i w w' evs i' (Returned None)).
  - now rewrite Hctx.
  - now apply backoff_Retry_nil.
Qed.

(** When the callback has called end-iteration and then failed, the
    latch stays set for the attempts that follow. *)
Lemma end_iteration_latched_on_failure i w w' evs i' res s e acts x :
  iterFunc_of i i w = (w', evs, (i', res)) ->
  In (EvOnBlocks s e acts (Some x)) evs ->
  In CallEnd acts \/ isEnd i = true ->
  res = Some x /\ isEnd i' = true.
Proof.
  intros Hrun Hin Hend.
  destruct (iterFunc_of_inv _ _ _ _ _ _ _ _ _ _ Hrun Hin)
    as (i1 & _ & Hend1 & _ & _ & Hres). cbv zeta in Hres.
  destruct Hres as [-> ->]. split; [reflexivity|].
  rewrite actions_isEnd, Hend1. destruct Hend as [Hend|Hend].
  - apply In_calls_end in Hend. rewrite Hend. apply orb_true_r.
  - now rewrite Hend.
Qed.

(** ** Callback errors *)

(** Without a call to update-cursor that carries a header, the callback
    can only have set the latch. *)
Lemma actions_without_update acts : forall i,
  last_update acts = None ->
  fold_left apply_action acts i = if calls_end acts then set_isEnd i true else i.
Proof.
  induction acts as [|a acts IH]; intros i Hup; [reflexivity|].
  destruct a as [[h|]|]; simpl in *.
  - destruct (last_update acts); discriminate.
  - exact (IH i Hup).
  - rewrite (IH (end_ i) Hup). destruct (calls_end acts); reflexivity.
Qed.

(** The latch is read only after the callback has returned: it has no
    influence on the calls of an epoch. *)
Lemma epoch_calls_ignore_latch b i w :
  snd (fst (iter (set_isEnd i b) w)) = snd (fst (iter i w)) /\
  snd (fst (reverseIter (set_isEnd i b) w)) = snd (fst (reverseIter i w)).
Proof.
  split.
  - unfold iter, ensureCurrentNotReorged, rewindOnReorgDetected.
    unfold_calls. simpl.
    repeat (cbv beta; break_match; simpl in *); try congruence;
      repeat match goal with
             | H : (_, _) = (_, _) |- _ => inversion H; subst; clear H
             end; simpl in *; try reflexivity; congruence.
  - unfold reverseIter, ensureCurrentNotReorged, rewindOnReorgDetected.
    unfold_calls. simpl.
    repeat (cbv beta; break_match; simpl in *); try congruence;
      repeat match goal with
             | H : (_, _) = (_, _) |- _ => inversion H; subst; clear H
             end; simpl in *; try reflexivity; congruence.
Qed.

(** C7: an epoch whose callback fails without having moved the cursor
    leaves the cursor at the boundary it handed to the callback; when the
    reorg check of that epoch found the cursor, this is the cursor the epoch
    started with, and a retry makes, in whatever world it runs, the very
    calls the failed epoch would have made there: the same lookups and the
    same batch for the callback. *)
Theorem failed_callback_keeps_cursor i w w' evs i' res s e acts x :
  iterFunc_of i i w = (w', evs, (i', res)) ->
  In (EvOnBlocks s e acts (Some x)) evs ->
  last_update acts = None ->
  res = Some x /\
  current i' = (if reverse i then e else s) /\
  (forall h cur e0, In (EvHeaderByHash h (Some cur, e0)) evs ->
     current i' = current i /\
     forall w2, snd (fst (iterFunc_of i' i' w2)) = snd (fst (iterFunc_of i i w2))).
Proof.
  intros Hrun Hin Hup.
  destruct (iterFunc_of_inv _ _ _ _ _ _ _ _ _ _ Hrun Hin)
    as (i1 & _ & _ & Hb & Hsame & Hres). cbv zeta in Hres.
  destruct Hres as [-> ->]. split; [reflexivity|].
  split; [now rewrite actions_current, Hup|].
  intros h cur e0 Hh. specialize (Hsame _ _ _ Hh). subst i1.
  split; [now rewrite actions_current, Hup|].
  intros w2. rewrite (actions_without_update acts i Hup).
  destruct (calls_end acts); [|reflexivity].
  unfold iterFunc_of. simpl.
  destruct (epoch_calls_ignore_latch true i w2) as [Hf Hr].
  destruct (reverse i); assumption.
Qed.

(** ** What [Iter] returns *)

(** A permanent error is what makes [backoff.Retry], with its constant
    back-off, return an error at all. *)
Lemma backoff_Retry_error fuel op interval : forall i w w' evs i' e,
  backoff_Retry timer_wait fuel op interval i w = (w', evs, (i', Returned (Some e))) ->
  exists i0 w0 w1 evs1 e1,
    op i0 w0 = (w1, evs1, (i', Returned (Some e1))) /\ as_Permanent e1 = Some e /\
    w' = w1.
Proof.
  induction fuel as [|fuel IH]; intros i w w' evs i' e; simpl.
  - unfold ret. discriminate.
  - unfold bind. destruct (op i w) as [[w1 evs1] [i1 [[e1|]|]]] eqn:Hop.
    + destruct (as_Permanent e1) as [inner|] eqn:Hp.
      * unfold ret. intros H. inversion H; subst. now exists i, w, w', evs1, e1.
      * unfold wait.
        destruct (backoff_Retry timer_wait fuel op interval i1
                    (timer_wait interval w1)) as [[w2 evs2] [i2 r2]] eqn:Hrec.
        intros H. inversion H; subst. exact (IH _ _ _ _ _ _ Hrec).
    + unfold ret. discriminate.
    + unfold ret. discriminate.
Qed.

(** C9, as amended: a cancellation pending when an attempt is about to
    start ends the loop there, and [Iter] with the cancellation error, no
    call and no wait; when [Iter] returns otherwise, it returns the error of the retry
    wrapper if there is one (an error some [iterOp] returned as permanent),
    without a look at the context, and else the cancellation error if one
    is pending, nil if none. *)
Theorem Iter_result fuel i w :
  (forall c (f : EpochFunc), ctx i w = Some c ->
     iterOp (S fuel) f i w = (w, [], (i, Returned None)) /\
     Iter timer_wait (S fuel) i w = (w, [], (i, Returned (Some c)))) /\
  (forall w' evs i' r,
     Iter timer_wait fuel i w = (w', evs, (i', Returned r)) ->
     (exists e, r = Some e /\
        backoff_Retry timer_wait fuel (iterOp fuel (iterFunc_of i)) (retryInterval i) i w
        = (w', evs, (i', Returned (Some e))) /\
        exists i0 w0 evs1 e1,
          iterOp fuel (iterFunc_of i) i0 w0 = (w', evs1, (i', Returned (Some e1))) /\
          as_Permanent e1 = Some e) \/
     (r = ctx i' w' /\
        backoff_Retry timer_wait fuel (iterOp fuel (iterFunc_of i)) (retryInterval i) i w
        = (w', evs, (i', Returned None)))).
Proof.
  split.
  - intros c f Hc. split; [now apply iterOp_canceled with (c := c)|].
    rewrite (Iter_of_Retry (S fuel) i w w [] i (Returned None)).
    + now rewrite Hc.
    + apply backoff_Retry_nil. now apply iterOp_canceled with (c := c).
  - intros w' evs i' r.
    destruct (backoff_Retry timer_wait fuel (iterOp fuel (iterFunc_of i))
                (retryInterval i) i w) as [[w1 evs1] [i1 r1]] eqn:Hretry.
    rewrite (Iter_of_Retry _ _ _ _ _ _ _ Hretry).
    destruct r1 as [[e|]|]; intros H; inversion H; subst.
    + left. exists e. repeat split.
      destruct (backoff_Retry_error _ _ _ _ _ _ _ _ _ Hretry)
        as (i0 & w0 & w2 & evs2 & e1 & Hop & Hp & ->).
      now exists i0, w0, evs2, e1.
    + right. split; reflexivity.
Qed.

(** ** Forward coverage *)

Lemma callback_pairs_app evs1 evs2 :
  callback_pairs (evs1 ++ evs2) = callback_pairs evs1 ++ callback_pairs evs2.
Proof.
  induction evs1 as [|ev evs1 IH]; [reflexivity|].
  destruct ev; simpl; rewrite IH; reflexivity.
Qed.

Section ForwardRun.

(** A node that serves one chain of headers and never drops one, a
    callback that succeeds and leaves both capabilities alone, a context
    that is never canceled. *)
Variables (cl : EthClient World) (cb : OnBlocksFunc World)
          (ctx0 : context_Context World) (chain : Z -> Header).
Variables (S0 E B : Z).
Hypothesis Hchain : forall n, Number (chain n) = n.
Hypothesis Hnum : forall n w, snd (HeaderByNumber cl (Some n) w) = Ok (chain n).
Hypothesis Hhash : forall n w,
  exists h, snd (HeaderByHash cl (Hash (chain n)) w) = (Some h, None).
Hypothesis Hcb : forall s e w, snd (cb s e w) = ([], None).
Hypothesis Hctx : forall w, ctx0 w = None.
Hypothesis HS : 0 <= S0 <= E.
Hypothesis HB : 1 <= B.
Hypothesis Hwrap : E + B < two64.

Lemma forward_epoch i w c :
  forward_at cl cb ctx0 chain E B i c -> 0 <= c < E ->
  let n := if c + B >=? E then E else c + B in
  exists w' r,
    iter i w =
    (w', [EvHeaderByHash (Hash (chain c)) r;
          EvHeaderByNumber (Some n) (Ok (chain n));
          EvOnBlocks (chain c) (chain n) [] None],
     (set_current i (chain n),
      Some (if c + B >=? E then io_EOF else errContinue))).
Proof.
  intros (Hcl & Hon & _ & Hend & Hbatch & Hlatch & Hcur) Hc n.
  destruct (Hhash c w) as [h Hh].
  destruct (HeaderByHash cl (Hash (chain c)) w) as [w1 r1] eqn:E1.
  simpl in Hh. subst r1.
  assert (Hu : Uint64 (Number (current i)) = c).
  { rewrite Hcur, Hchain. apply Uint64_small. unfold is_uint64. lia. }
  unfold iter, bind.
  rewrite (ensure_found i w w1 h None) by (rewrite ?Hcl, ?Hcur; congruence).
  rewrite Hend, Hu, Hbatch. simpl.
  destruct (Z.geb_spec c E); [lia|].
  unfold iter_endHeight. rewrite add64_exact by lia. fold n.
  assert (Hn : (if c + B >=? E then (E, true) else (c + B, false))
               = (n, c + B >=? E)).
  { subst n. destruct (c + B >=? E); reflexivity. }
  rewrite Hn. unfold_calls. rewrite Hcl.
  specialize (Hnum n w1).
  destruct (HeaderByNumber cl (Some n) w1) as [w2 r2]. simpl in Hnum. subst r2.
  rewrite Hon. specialize (Hcb (current i) (chain n) w2).
  destruct (cb (current i) (chain n) w2) as [w3 r3]. simpl in Hcb. subst r3.
  simpl. rewrite Hlatch, Hcur. simpl.
  exists w3, (Some h, None).
  destruct (c + B >=? E); reflexivity.
Qed.

Lemma forward_loop : forall fuel c i w,
  forward_at cl cb ctx0 chain E B i c -> 0 <= c <= E ->
  (Z.to_nat (E - c) < fuel)%nat ->
  exists w' evs i',
    iterOp fuel iter i w = (w', evs, (i', Returned None)) /\
    chained B E c (callback_pairs evs) /\ current i' = chain E /\
    ctx i' = ctx0.
Proof.
  induction fuel as [|fuel IH]; intros c i w Hi Hc Hfuel; [lia|].
  assert (Huc : Uint64 c = c) by (apply Uint64_small; unfold is_uint64; lia).
  assert (HuE : Uint64 E = E) by (apply Uint64_small; unfold is_uint64; lia).
  pose proof Hi as (Hcl & Hon & Hcx & Hend & Hbatch & Hlatch & Hcur).
  destruct (Z.eq_dec c E) as [->|Hne].
  - (* nothing left *)
    destruct (Hhash E w) as [h Hh].
    destruct (HeaderByHash cl (Hash (chain E)) w) as [w1 r1] eqn:E1.
    simpl in Hh. subst r1.
    assert (Hex : iter i w =
                  (w1, [EvHeaderByHash (Hash (current i)) (Some h, None)],
                   (i, Some io_EOF))).
    { apply (exhausted_epoch_checks_reorg_only i w w1 h None) with (dest := E).
      - rewrite Hcl, Hcur. exact E1.
      - discriminate.
      - exact Hend.
      - rewrite Hcur, Hchain, HuE. lia. }
    exists w1, [EvHeaderByHash (Hash (current i)) (Some h, None)], i.
    split; [|now repeat split].
    apply iterOp_exhausted with (e := io_EOF); auto.
    rewrite Hcx. apply Hctx.
  - destruct (forward_epoch i w c Hi ltac:(lia)) as (w1 & r & Hstep).
    cbv zeta in Hstep.
    simpl. rewrite Hcx, Hctx. unfold bind. rewrite Hstep.
    destruct (Z.geb_spec (c + B) E) as [Hlast|Hmore].
    + (* the last batch *)
      simpl. do 3 eexists. split; [reflexivity|]. simpl.
      rewrite Hchain, Hchain, Huc, HuE. repeat split; auto. lia.
    + simpl.
      assert (Hi' : forward_at cl cb ctx0 chain E B (set_current i (chain (c + B))) (c + B)).
      { unfold forward_at. simpl. tauto. }
      destruct (IH (c + B) _ w1 Hi' ltac:(lia) ltac:(lia))
        as (w' & evs & i' & Hloop & Hch & Hfin & Hcx').
      rewrite Hloop. do 3 eexists. split; [reflexivity|].
      split; [|split; assumption].
      simpl. rewrite Hchain, Hchain, Huc.
      rewrite (Uint64_small (c + B)) by (unfold is_uint64; lia).
      split; [reflexivity|].
      destruct (callback_pairs evs) as [|p rest] eqn:Hp.
      * simpl in Hch. lia.
      * split; [lia | exact Hch].
Qed.

Lemma constructed_forward cfg w w0 evs0 it :
  Client cfg = Some cl -> OnBlocks cfg = Some cb ->
  StartHeight cfg = Some S0 -> EndHeight cfg = Some E ->
  MaxBlocksReadPerEpoch cfg = Some B -> Reverse cfg = false ->
  NewBlockBatchIterator ctx0 cfg w = (w0, evs0, Ok it) ->
  forward_at cl cb ctx0 chain E B it S0 /\ reverse it = false.
Proof.
  intros Hcl Hon Hs He Hb Hrev. unfold NewBlockBatchIterator.
  rewrite Hcl, Hon, Hs, He, Hb, Hrev. unfold_calls.
  destruct (ChainID cl w) as [w1 [cid|e1]]; [|discriminate].
  destruct (S0 >? E); [discriminate|].
  specialize (Hnum S0 w1).
  destruct (HeaderByNumber cl (Some S0) w1) as [w2 r2]. simpl in Hnum. subst r2.
  cbn [andb].
  destruct (HeaderByNumber cl (Some E) w2) as [w3 [eh|e3]]; [|discriminate].
  intros H. inversion H; subst. unfold forward_at. simpl.
  rewrite (Uint64_small E) by (unfold is_uint64; lia). tauto.
Qed.

(** C3, as amended: for a forward run from [S0] to [E] with a batch
    size of at least one block and small enough for [E + B] to fit 64
    bits, on a chain without reorgs, with no cancellation and a callback
    that succeeds without using a capability, [Iter] returns nil and the
    batches it handed to the callback chain from [S0] to [E]: each starts
    where the one before ended, all but the last span [B] blocks, the last
    one ends at [E] and spans at most [B]. *)
Theorem forward_run_chains cfg w w0 evs0 it fuel :
  Client cfg = Some cl -> OnBlocks cfg = Some cb ->
  StartHeight cfg = Some S0 -> EndHeight cfg = Some E ->
  MaxBlocksReadPerEpoch cfg = Some B -> Reverse cfg = false ->
  NewBlockBatchIterator ctx0 cfg w = (w0, evs0, Ok it) ->
  (Z.to_nat (E - S0) < fuel)%nat ->
  exists w' evs i',
    Iter timer_wait fuel it w0 = (w', evs, (i', Returned None)) /\
    chained B E S0 (callback_pairs evs) /\
    current i' = chain E.
Proof.
  intros Hcl Hon Hs He Hb Hrev Hnew Hfuel.
  destruct (constructed_forward _ _ _ _ _ Hcl Hon Hs He Hb Hrev Hnew)
    as [Hit Hfwd].
  destruct (forward_loop fuel S0 it w0 Hit ltac:(lia) Hfuel)
    as (w' & evs & i' & Hloop & Hch & Hfin & Hcx).
  exists w', evs, i'.
  destruct fuel as [|fuel]; [lia|].
  rewrite (Iter_of_Retry (S fuel) it w0 w' evs i' (Returned None)).
  - rewrite Hcx, Hctx. auto.
  - apply backoff_Retry_nil. unfold iterFunc_of. rewrite Hfwd. exact Hloop.
Qed.

End ForwardRun.

End Properties.

(** * The scenario, run *)

Import Scenario.

(** ** Where the code departs from a claim *)

(** C1 fails as stated: the callback moves the cursor to the header at
    height 150 and succeeds, and the cursor after the epoch is the end
    header of the batch, at height 200. *)
Lemma update_cursor_overwritten_on_success :
  NewBlockBatchIterator background
    (config node overriding 100 (Some 250) (Some 100) false None) calm =
  (calm,
   [EvChainID (Ok 167); EvHeaderByNumber (Some 100) (Ok (canon 100));
    EvHeaderByNumber (Some 250) (Ok (canon 250))],
   Ok (it_fwd overriding)) /\
  iter (it_fwd overriding) calm =
  (calm,
   [EvHeaderByHash 10100 (Some (canon 100), None);
    EvHeaderByNumber (Some 200) (Ok (canon 200));
    EvOnBlocks (canon 100) (canon 200) [CallUpdateCurrent (Some (canon 150))] None],
   (set_current (it_fwd overriding) (canon 200), Some errContinue)) /\
  current (fst (snd (iter (it_fwd overriding) calm))) <> canon 150.
Proof. repeat split. discriminate. Qed.

(** C2 fails on the code: the configuration asks for a rewind of 20
    blocks, the iterator built from it rewinds by none.  The cursor at
    height 100 is lost in a reorg, and the epoch looks up height 100 again
    (not height 80) and hands the batch from 100 to 200 to the callback. *)
Lemma configured_rewind_depth_is_dropped :
  NewBlockBatchIterator background
    (config node plain 100 (Some 250) (Some 100) false (Some 20)) calm =
  (calm,
   [EvChainID (Ok 167); EvHeaderByNumber (Some 100) (Ok (canon 100));
    EvHeaderByNumber (Some 250) (Ok (canon 250))],
   Ok (it_fwd plain)) /\
  reorgRewindDepth (it_fwd plain) = 0 /\
  iter (it_fwd plain) after_reorg =
  (after_reorg,
   [EvHeaderByHash 10100 (None, Some ethereum_NotFound);
    EvHeaderByNumber (Some 100) (Ok (forked 100));
    EvHeaderByNumber (Some 200) (Ok (forked 200));
    EvOnBlocks (forked 100) (forked 200) [] None],
   (set_current (it_fwd plain) (forked 200), Some errContinue)).
Proof. repeat split. Qed.

(** C3 fails as stated: with a batch size of [2^64 - 5] the sum of the
    cursor height and the batch size wraps around, and the run from 10 to
    100 hands the callback the batches 10 to 5, 5 to 0 and 0 to 100. *)
Lemma wrapped_batch_breaks_chain :
  NewBlockBatchIterator background
    (config node plain 10 (Some 100) (Some (two64 - 5)) false None) calm =
  (calm,
   [EvChainID (Ok 167); EvHeaderByNumber (Some 10) (Ok (canon 10));
    EvHeaderByNumber (Some 100) (Ok (canon 100))],
   Ok (constructed node plain 10 100 (two64 - 5) false)) /\
  snd (snd (Iter no_wait 4 (constructed node plain 10 100 (two64 - 5) false) calm))
  = Returned None /\
  callback_pairs
    (snd (fst (Iter no_wait 4 (constructed node plain 10 100 (two64 - 5) false) calm)))
  = [(10, 5); (5, 0); (0, 100)] /\
  ~ chained (two64 - 5) 100 10 [(10, 5); (5, 0); (0, 100)].
Proof.
  repeat split. intros [_ [H _]]. vm_compute in H. discriminate.
Qed.

(** With a batch size of zero the cursor never moves: however many
    turns the loop is given, it has not returned. *)
Lemma zero_batch_never_ends (fuel : nat) :
  snd (snd (iterOp fuel iter (constructed node plain 0 1 0 false) calm)) = OutOfFuel.
Proof.
  induction fuel as [|fuel IH]; [reflexivity|].
  change (iterOp (S fuel) iter (constructed node plain 0 1 0 false) calm)
    with (let '(w, evs, r) :=
            iterOp fuel iter (constructed node plain 0 1 0 false) calm in
          (w, [EvHeaderByHash 10000 (Some (canon 0), None);
               EvHeaderByNumber (Some 0) (Ok (canon 0));
               EvOnBlocks (canon 0) (canon 0) [] None] ++ evs, r)).
  destruct (iterOp fuel iter (constructed node plain 0 1 0 false) calm)
    as [[w evs] r]. exact IH.
Qed.

(** C4 fails as stated: construction in reverse mode without an end
    height has fetched the chain ID and the start header by the time it
    reports the missing end height. *)
Lemma missing_end_height_reported_after_lookups :
  NewBlockBatchIterator background
    (config node plain 100 None (Some 100) true None) calm =
  (calm,
   [EvChainID (Ok 167); EvHeaderByNumber (Some 100) (Ok (canon 100))],
   Err (errors_New "missing end height")) /\
  network_calls
    (snd (fst (NewBlockBatchIterator background
                 (config node plain 100 None (Some 100) true None) calm)))
  <> [].
Proof. repeat split. discriminate. Qed.

(** C5 fails as stated: the forward run over the blocks 100 to 250 is
    over, its cursor at height 250, and one more epoch looks the cursor up
    by hash before it signals range-exhausted again. *)
Lemma exhausted_epoch_makes_a_call :
  Iter no_wait 3 (it_fwd plain) calm =
  (calm,
   [EvHeaderByHash 10100 (Some (canon 100), None);
    EvHeaderByNumber (Some 200) (Ok (canon 200));
    EvOnBlocks (canon 100) (canon 200) [] None;
    EvHeaderByHash 10200 (Some (canon 200), None);
    EvHeaderByNumber (Some 250) (Ok (canon 250));
    EvOnBlocks (canon 200) (canon 250) [] None],
   (set_current (it_fwd plain) (canon 250), Returned None)) /\
  iter (set_current (it_fwd plain) (canon 250)) calm =
  (calm, [EvHeaderByHash 10250 (Some (canon 250), None)],
   (set_current (it_fwd plain) (canon 250), Some io_EOF)) /\
  network_calls (snd (fst (iter (set_current (it_fwd plain) (canon 250)) calm)))
  <> [].
Proof. repeat split. discriminate. Qed.

(** C9 fails as stated: the callback returns a permanent error while
    the context gets canceled; [Iter] returns that error, not the
    cancellation error that is pending when it returns. *)
Lemma permanent_error_beats_cancellation :
  Iter no_wait 2 (it_fwd giving_up) calm =
  (mkWorld true false,
   [EvHeaderByHash 10100 (Some (canon 100), None);
    EvHeaderByNumber (Some 200) (Ok (canon 200));
    EvOnBlocks (canon 100) (canon 200) []
               (Some (backoff_Permanent (errors_New "giving up")))],
   (it_fwd giving_up, Returned (Some (errors_New "giving up")))) /\
  ctx (it_fwd giving_up) (mkWorld true false) = Some context_Canceled /\
  errors_New "giving up" <> context_Canceled.
Proof. repeat split. discriminate. Qed.

(** ** The theorems at work on the scenario *)

(** The callback moves the cursor to height 150 and fails: the cursor
    stays there. *)
Lemma update_cursor_kept_on_failure_only_witness :
  isEnd (it_fwd stumbling) = false /\
  (Some (errors_New "no luck") = Some (errors_New "no luck") /\
   current (set_current (it_fwd stumbling) (canon 150)) = canon 150).
Proof.
  split; [reflexivity|].
  apply (update_cursor_kept_on_failure_only
           (it_fwd stumbling) calm calm
           [EvHeaderByHash 10100 (Some (canon 100), None);
            EvHeaderByNumber (Some 200) (Ok (canon 200));
            EvOnBlocks (canon 100) (canon 200)
                       [CallUpdateCurrent (Some (canon 150))]
                       (Some (errors_New "no luck"))]
           (set_current (it_fwd stumbling) (canon 150))
           (Some (errors_New "no luck"))
           (canon 100) (canon 200)
           [CallUpdateCurrent (Some (canon 150))]
           (Some (errors_New "no luck")) (canon 150)).
  - reflexivity.
  - simpl. auto.
  - reflexivity.
  - reflexivity.
  - reflexivity.
Defined.

(** The spec's own scenario: from 100 to 250 in batches of 100. *)
Lemma forward_run_chains_witness :
  0 <= 100 <= 250 /\ 1 <= 100 /\ 250 + 100 < two64 /\
  exists w' evs i',
    Iter no_wait 151 (constructed_with never steady plain 100 250 100 false) calm
    = (w', evs, (i', Returned None)) /\
    chained 100 250 100 (callback_pairs evs) /\
    current i' = canon 250.
Proof.
  split; [lia|]. split; [lia|]. split; [reflexivity|].
  apply (forward_run_chains no_wait steady plain never canon 100 250 100)
    with (cfg := config steady plain 100 (Some 250) (Some 100) false (Some 20))
         (w := calm)
         (evs0 := [EvChainID (Ok 167); EvHeaderByNumber (Some 100) (Ok (canon 100));
                   EvHeaderByNumber (Some 250) (Ok (canon 250))]).
  - reflexivity.
  - reflexivity.
  - intros n w. exists (canon n). unfold canon. simpl.
    replace (n + 10000 - 10000) with n by lia. reflexivity.
  - reflexivity.
  - reflexivity.
  - lia.
  - lia.
  - reflexivity.
  - reflexivity.
  - reflexivity.
  - reflexivity.
  - reflexivity.
  - reflexivity.
  - reflexivity.
  - reflexivity.
  - simpl. lia.
Defined.

(** Reverse mode, no end height. *)
Lemma reverse_without_end_height_fails_witness :
  Reverse (config node plain 100 None (Some 100) true None) = true /\
  EndHeight (config node plain 100 None (Some 100) true None) = None /\
  exists w' evs e,
    NewBlockBatchIterator background
      (config node plain 100 None (Some 100) true None) calm = (w', evs, Err e) /\
    (forall r, ~ In (EvHeaderByNumber None r) evs) /\
    (e = errors_New "missing end height" <->
     exists cid s sh,
       StartHeight (config node plain 100 None (Some 100) true None) = Some s /\
       evs = [EvChainID (Ok cid); EvHeaderByNumber (Some s) (Ok sh)]).
Proof.
  split; [reflexivity|]. split; [reflexivity|].
  apply (reverse_without_end_height_fails background
           (config node plain 100 None (Some 100) true None) calm);
    reflexivity.
Defined.

(** The forward iterator with its cursor on the end height. *)
Lemma exhausted_epoch_checks_reorg_only_witness :
  250 <= Uint64 (Number (current (set_current (it_fwd plain) (canon 250)))) /\
  iter (set_current (it_fwd plain) (canon 250)) calm =
  (calm, [EvHeaderByHash 10250 (Some (canon 250), None)],
   (set_current (it_fwd plain) (canon 250), Some io_EOF)).
Proof.
  split; [vm_compute; discriminate|].
  apply (proj1 (exhausted_epoch_checks_reorg_only
                  (set_current (it_fwd plain) (canon 250)) calm calm
                  (canon 250) None eq_refl
                  ltac:(intros e H; discriminate))) with (dest := 250).
  - reflexivity.
  - vm_compute. discriminate.
Defined.

(** The reverse iterator at height 250: the candidate is 150. *)
Lemma reverse_epoch_start_candidate_witness :
  is_uint64 (blocksReadPerEpoch (it_rev plain)) /\
  startHeight (it_rev plain) < Uint64 (Number (current (it_rev plain))) /\
  reverseIter_startHeight 250 100 100 = (150, false).
Proof.
  split; [vm_compute; split; [discriminate | reflexivity]|].
  split; [reflexivity|].
  apply (reverse_epoch_start_candidate (it_rev plain) calm calm
           [EvHeaderByHash 10250 (Some (canon 250), None)] (it_rev plain)).
  - vm_compute. split; [discriminate | reflexivity].
  - reflexivity.
  - reflexivity.
Defined.

(** The callback ends the iteration in the first of two epochs. *)
Lemma end_iteration_stops_driver_witness :
  ctx (it_fwd ending) calm = None /\
  In CallEnd [CallEnd] /\
  Iter no_wait 1 (it_fwd ending) calm =
  (calm,
   [EvHeaderByHash 10100 (Some (canon 100), None);
    EvHeaderByNumber (Some 200) (Ok (canon 200));
    EvOnBlocks (canon 100) (canon 200) [CallEnd] None],
   (set_isEnd (it_fwd ending) true, Returned (ctx (it_fwd ending) calm))).
Proof.
  split; [reflexivity|]. split; [simpl; auto|].
  apply (end_iteration_stops_driver no_wait 0 (it_fwd ending) calm calm
           [EvHeaderByHash 10100 (Some (canon 100), None);
            EvHeaderByNumber (Some 200) (Ok (canon 200));
            EvOnBlocks (canon 100) (canon 200) [CallEnd] None]
           (set_isEnd (it_fwd ending) true) (Some io_EOF)
           (canon 100) (canon 200) [CallEnd]).
  - reflexivity.
  - reflexivity.
  - simpl. auto.
  - left. simpl. auto.
Defined.

(** The callback fails, the cursor has not moved. *)
Lemma failed_callback_keeps_cursor_witness :
  last_update [] = None /\
  current (it_fwd failing) = canon 100.
Proof.
  split; [reflexivity|].
  apply (failed_callback_keeps_cursor (it_fwd failing) calm calm
           [EvHeaderByHash 10100 (Some (canon 100), None);
            EvHeaderByNumber (Some 200) (Ok (canon 200));
            EvOnBlocks (canon 100) (canon 200) [] (Some (errors_New "no luck"))]
           (it_fwd failing) (Some (errors_New "no luck"))
           (canon 100) (canon 200) [] (errors_New "no luck")).
  - reflexivity.
  - simpl. auto.
  - reflexivity.
Defined.

(** A canceled context. *)
Lemma Iter_result_witness :
  ctx (it_fwd plain) (mkWorld true false) = Some context_Canceled /\
  Iter no_wait 1 (it_fwd plain) (mkWorld true false) =
  (mkWorld true false, [], (it_fwd plain, Returned (Some context_Canceled))).
Proof.
  split; [reflexivity|].
  apply (proj1 (Iter_result no_wait 0 (it_fwd plain) (mkWorld true false))
               context_Canceled iter eq_refl).
Defined.

(** A forward construction with an end height. *)
Lemma forward_construction_end_lookup_witness :
  Reverse (config node plain 100 (Some 250) None false None) = false /\
  (forall e, EndHeight (config node plain 100 (Some 250) None false None) = Some e ->
             100 <= e) /\
  exists res,
    NewBlockBatchIterator background
      (config node plain 100 (Some 250) None false None) calm =
    (calm,
     [EvChainID (Ok 167); EvHeaderByNumber (Some 100) (Ok (canon 100));
      EvHeaderByNumber (Some 250) (Ok (canon 250))], res) /\
    exists it, res = Ok it /\ current it = canon 100 /\ reverse it = false.
Proof.
  split; [reflexivity|].
  split; [intros e H; inversion H; lia|].
  apply (forward_construction_end_lookup background
           (config node plain 100 (Some 250) None false None)
           node plain 100 calm calm calm calm 167 (canon 100)
           (Ok (canon 250))).
  - reflexivity.
  - reflexivity.
  - reflexivity.
  - reflexivity.
  - intros e H. inversion H. lia.
  - reflexivity.
  - reflexivity.
  - reflexivity.
Defined.

(** * Further properties of the iterator *)

Section Further.

Context {World : Type}.
Variable timer_wait : Z -> World -> World.

Implicit Types (i : BlockBatchIterator World) (w : World) (evs : list Event).

Ltac break_inner :=
  match goal with
  | |- context [match ?x with _ => _ end] =>
      lazymatch x with
      | context [match _ with _ => _ end] => fail
      | _ => destruct x eqn:?
      end
  end.

Ltac open_calls :=
  unfold call_onBlocks, call_HeaderByNumber, call_HeaderByHash,
         call_BlockNumber, call_ChainID, bind, ret in *.

Lemma same_config_refl i : same_config i i.
Proof. unfold same_config. repeat split; reflexivity. Qed.

Lemma same_config_trans i1 i2 i3 :
  same_config i1 i2 -> same_config i2 i3 -> same_config i1 i3.
Proof.
  unfold same_config. intros H1 H2.
  repeat match goal with H : _ /\ _ |- _ => destruct H end.
  repeat split; congruence.
Qed.

Lemma same_config_set_current i h : same_config i (set_current i h).
Proof. unfold same_config. repeat split; reflexivity. Qed.

Lemma callback_pairs_check (h0 : Z) (r : option Header * option error) tl :
  (forall ev, In ev tl -> exists n r2, ev = EvHeaderByNumber n r2) ->
  callback_pairs (EvHeaderByHash h0 r :: tl) = [].
Proof.
  intros Htl. simpl. induction tl as [|ev tl IH]; [reflexivity|].
  destruct (Htl ev (or_introl eq_refl)) as (n & r2 & ->). simpl.
  apply IH. intros ev Hev. apply Htl. now right.
Qed.

Lemma waits_check (h0 : Z) (r : option Header * option error) tl :
  (forall ev, In ev tl -> exists n r2, ev = EvHeaderByNumber n r2) ->
  waits (EvHeaderByHash h0 r :: tl) = [].
Proof.
  intros Htl. simpl. induction tl as [|ev tl IH]; [reflexivity|].
  destruct (Htl ev (or_introl eq_refl)) as (n & r2 & ->). simpl.
  apply IH. intros ev Hev. apply Htl. now right.
Qed.

Lemma waits_app evs1 evs2 : waits (evs1 ++ evs2) = waits evs1 ++ waits evs2.
Proof.
  induction evs1 as [|ev evs1 IH]; [reflexivity|].
  destruct ev; simpl; rewrite IH; reflexivity.
Qed.

Lemma callback_pairs_app' evs1 evs2 :
  callback_pairs (evs1 ++ evs2) = callback_pairs evs1 ++ callback_pairs evs2.
Proof.
  induction evs1 as [|ev evs1 IH]; [reflexivity|].
  destruct ev; simpl; rewrite IH; reflexivity.
Qed.

(** [errors.Is] sees through the wrapping of [fmt.Errorf]. *)
Lemma errors_Is_wrapped prefix e target :
  errors_Is e target = true -> errors_Is (fmt_Errorf prefix e) target = true.
Proof.
  intros H.
  change (errors_Is (fmt_Errorf prefix e) target)
    with (if error_eq_dec (fmt_Errorf prefix e) target then true
          else errors_Is e target).
  destruct (error_eq_dec (fmt_Errorf prefix e) target); [reflexivity | exact H].
Qed.

(** What every epoch, forward or reverse, keeps. *)
Lemma epoch_frame i w w' evs i' res :
  iterFunc_of i i w = (w', evs, (i', res)) ->
  same_config i i' /\
  (isEnd i = true -> isEnd i' = true) /\
  res <> None /\
  (List.length (callback_pairs evs) <= 1)%nat /\
  waits evs = [] /\
  (callback_pairs evs = [] ->
   forall h cur e0, In (EvHeaderByHash h (Some cur, e0)) evs -> i' = i).
Proof.
  unfold iterFunc_of.
  assert (Hfold : forall acts i1, isEnd i = true -> isEnd i1 = isEnd i ->
            isEnd (fold_left apply_action acts i1) = true).
  { intros acts i1 H1 H2. rewrite actions_isEnd, H2, H1. reflexivity. }
  destruct (reverse i); unfold iter, reverseIter, bind;
    destruct (ensureCurrentNotReorged i w) as [[w1 evs1] [i1 err1]] eqn:E;
    apply ensure_inv in E;
    destruct E as (Hcfg & Hend & r & tl & -> & Htl & Hfound & Herr);
    pose proof (callback_pairs_check (Hash (current i)) r tl Htl) as Hcp;
    pose proof (waits_check (Hash (current i)) r tl Htl) as Hwt;
    pose proof (hash_lookup_is_check (Hash (current i)) r tl Htl) as Hhash;
    open_calls;
    repeat (cbv beta; break_inner); simpl;
    intros H; inversion H; subst; clear H;
    rewrite ?app_comm_cons, ?callback_pairs_app', ?waits_app, ?Hcp, ?Hwt; simpl;
    (split; [eauto using same_config_trans, same_config_set_current,
                         actions_same_config|]);
    (split; [intros Hlatch; simpl; auto; try (rewrite Hend; exact Hlatch)|]);
    (split; [discriminate|]);
    (split; [simpl; lia|]);
    (split; [reflexivity|]);
    intros Hnone h cur e0 Hh; try discriminate;
    (eapply (Hhash _ h (Some cur, e0)) in Hh;
     [ subst r; now destruct (Hfound cur eq_refl)
     | intros ev Hev ? ?; simpl in Hev;
       repeat destruct Hev as [Hev|Hev]; try contradiction; subst;
       discriminate ]).
Qed.

(** ** Construction *)

(** X1: the constructor returns an iterator only for a configuration
    with a client, a callback and a start height that does not exceed the
    end height, with an end height in reverse mode, and after exactly three
    calls that all succeeded: the chain ID, the start header, the end
    header.  The cursor is the start header, or the end header in reverse
    mode; the latch is open; batch size and retry interval default to 1000
    blocks and 12 seconds. *)
Theorem construction_succeeds_only_if
  (ctx0 : context_Context World) (cfg : BlockBatchIteratorConfig World)
  w w' evs it :
  NewBlockBatchIterator ctx0 cfg w = (w', evs, Ok it) ->
  exists cl cb s cid sh eh,
    Client cfg = Some cl /\ OnBlocks cfg = Some cb /\ StartHeight cfg = Some s /\
    (forall e, EndHeight cfg = Some e -> s <= e) /\
    (Reverse cfg = true -> EndHeight cfg <> None) /\
    evs = [EvChainID (Ok cid); EvHeaderByNumber (Some s) (Ok sh);
           EvHeaderByNumber (EndHeight cfg) (Ok eh)] /\
    client it = cl /\ onBlocks it = cb /\ ctx it = ctx0 /\ chainID it = cid /\
    current it = (if Reverse cfg then eh else sh) /\
    reverse it = Reverse cfg /\ isEnd it = false /\
    startHeight it = Uint64 s /\
    endHeight it = option_map Uint64 (EndHeight cfg) /\
    blocksReadPerEpoch it =
      match MaxBlocksReadPerEpoch cfg with Some n => n | None => 1000 end /\
    retryInterval it =
      match RetryInterval cfg with Some d => d | None => 12000000000 end.
Proof.
  unfold NewBlockBatchIterator. open_calls.
  destruct (Client cfg) as [cl|]; [|discriminate].
  destruct (OnBlocks cfg) as [cb|]; [|discriminate].
  destruct (ChainID cl w) as [w1 [cid|e1]]; [|discriminate].
  destruct (StartHeight cfg) as [s|]; [|discriminate].
  destruct (match EndHeight cfg with Some e => s >? e | None => false end) eqn:Hord;
    [discriminate|].
  destruct (HeaderByNumber cl (Some s) w1) as [w2 [sh|e2]]; [|discriminate].
  destruct (Reverse cfg && match EndHeight cfg with None => true | Some _ => false end)
    eqn:Hrev; [discriminate|].
  destruct (HeaderByNumber cl (EndHeight cfg) w2) as [w3 [eh|e3]]; [|discriminate].
  simpl. intros H. inversion H; subst; clear H.
  exists cl, cb, s, cid, sh, eh. simpl.
  repeat split.
  - intros e He. rewrite He in Hord. destruct (Z.gtb_spec s e); [discriminate | lia].
  - intros Hr He. rewrite Hr, He in Hrev. discriminate.
Qed.

(** X2: a configuration without client or callback is rejected with no
    call at all, and one without start height, or with a start height
    above its end height, with no header lookup (the chain ID is the one
    thing that may have been fetched). *)
Theorem invalid_configuration_rejected_early
  (ctx0 : context_Context World) (cfg : BlockBatchIteratorConfig World) w :
  (Client cfg = None \/ OnBlocks cfg = None ->
   exists msg, NewBlockBatchIterator ctx0 cfg w = (w, [], Err (errors_New msg))) /\
  (StartHeight cfg = None \/
   (exists s e, StartHeight cfg = Some s /\ EndHeight cfg = Some e /\ e < s) ->
   exists w' evs err,
     NewBlockBatchIterator ctx0 cfg w = (w', evs, Err err) /\
     (List.length evs <= 1)%nat /\
     forall n r, ~ In (EvHeaderByNumber n r) evs).
Proof.
  unfold NewBlockBatchIterator. open_calls. split.
  - intros [H|H]; rewrite H; [|destruct (Client cfg)]; eexists; reflexivity.
  - intros Hbad.
    destruct (Client cfg) as [cl|];
      [destruct (OnBlocks cfg) as [cb|]|];
      try (do 3 eexists; split; [reflexivity|]; split; [simpl; lia|];
           intros n r []).
    destruct (ChainID cl w) as [w1 [cid|e1]];
      [|do 3 eexists; split; [reflexivity|]; split; [simpl; lia|];
        intros n r [H|[]]; discriminate].
    destruct Hbad as [H|(s & e & Hs & He & Hlt)].
    + rewrite H. do 3 eexists. split; [reflexivity|]. split; [simpl; lia|].
      intros n r [H0|[]]; discriminate.
    + rewrite Hs, He. destruct (Z.gtb_spec s e); [|lia].
      do 3 eexists. split; [reflexivity|]. split; [simpl; lia|].
      intros n r [H0|[]]; discriminate.
Qed.

(** ** The reorg check *)

(** X3: when the lookup of the cursor by hash finds nothing (not-found,
    or no header and no error), the check looks up the header [depth]
    blocks below the cursor, at height 0 if the cursor is not that high,
    the depth being the one held in the iterator.  That header becomes the
    cursor; if the lookup fails the cursor stays and the epoch fails with
    the error, wrapped, before any boundary is computed. *)
Theorem reorg_rewinds_by_depth i w w1 err :
  is_uint64 (reorgRewindDepth i) ->
  HeaderByHash (client i) (Hash (current i)) w = (w1, (None, err)) ->
  (forall e, err = Some e -> is_not_found e = true) ->
  let n := Z.max 0 (Uint64 (Number (current i)) - reorgRewindDepth i) in
  exists w2 r,
    HeaderByNumber (client i) (Some n) w1 = (w2, r) /\
    ensureCurrentNotReorged i w =
    (w2, [EvHeaderByHash (Hash (current i)) (None, err);
          EvHeaderByNumber (Some n) r],
     match r with
     | Ok h => (set_current i h, None)
     | Err e => (i, Some e)
     end) /\
    (forall e, r = Err e ->
       iterFunc_of i i w =
       (w2, [EvHeaderByHash (Hash (current i)) (None, err);
             EvHeaderByNumber (Some n) r],
        (i, Some (fmt_Errorf reorg_check_failed e)))).
Proof.
  intros Hd Hh Hnf n.
  destruct (rewind_target i w1 Hd) as (w2 & r & Hlook & Hrew).
  fold n in Hlook, Hrew. exists w2, r. split; [exact Hlook|].
  assert (Hens : ensureCurrentNotReorged i w =
                 (w2, [EvHeaderByHash (Hash (current i)) (None, err);
                       EvHeaderByNumber (Some n) r],
                  match r with
                  | Ok h => (set_current i h, None)
                  | Err e => (i, Some e)
                  end)).
  { rewrite (ensure_missing i w w1 err Hh Hnf), Hrew. reflexivity. }
  split; [exact Hens|].
  intros e ->. unfold iterFunc_of.
  destruct (reverse i); unfold iter, reverseIter, bind; rewrite Hens;
    reflexivity.
Qed.

(** X4: an error of the lookup by hash other than not-found fails the
    epoch, forward or reverse, with that error wrapped: nothing else is
    called, the iterator is as it was, and this even if the lookup came
    with a header. *)
Theorem reorg_check_error_fails_epoch i w w1 cur e :
  HeaderByHash (client i) (Hash (current i)) w = (w1, (cur, Some e)) ->
  is_not_found e = false ->
  iterFunc_of i i w =
  (w1, [EvHeaderByHash (Hash (current i)) (cur, Some e)],
   (i, Some (fmt_Errorf reorg_check_failed e))) /\
  forall target,
    errors_Is e target = true ->
    errors_Is (fmt_Errorf reorg_check_failed e) target = true.
Proof.
  intros Hh Hnf. split.
  - unfold iterFunc_of.
    destruct (reverse i); unfold iter, reverseIter, ensureCurrentNotReorged;
      open_calls; rewrite Hh, Hnf; reflexivity.
  - intros target Ht. now apply errors_Is_wrapped.
Qed.

(** ** Epochs *)

(** X5: an epoch, forward or reverse, never returns nil: it returns
    [io.EOF], [errContinue] or a failure.  It invokes the callback at most
    once and never waits. *)
Theorem epoch_signals_and_calls_back_once i w :
  snd (snd (iterFunc_of i i w)) <> None /\
  (List.length (callback_pairs (snd (fst (iterFunc_of i i w)))) <= 1)%nat /\
  waits (snd (fst (iterFunc_of i i w))) = [].
Proof.
  destruct (iterFunc_of i i w) as [[w' evs] [i' res]] eqn:E.
  destruct (epoch_frame _ _ _ _ _ _ E) as (_ & _ & H1 & H2 & H3 & _).
  simpl. auto.
Qed.

(** X6: an epoch that does not get to invoke the callback, while its
    reorg check found the cursor, leaves the iterator exactly as it was:
    whichever lookup failed, or the range being exhausted, nothing has
    moved. *)
Theorem epoch_without_callback_changes_nothing i w w' evs i' res h cur e0 :
  iterFunc_of i i w = (w', evs, (i', res)) ->
  callback_pairs evs = [] ->
  In (EvHeaderByHash h (Some cur, e0)) evs ->
  i' = i.
Proof.
  intros E Hnone Hh.
  destruct (epoch_frame _ _ _ _ _ _ E) as (_ & _ & _ & _ & _ & H).
  exact (H Hnone h cur e0 Hh).
Qed.

Lemma iter_endHeight_spec (h B dest : Z) :
  0 <= h -> 0 <= B -> h + B < two64 ->
  iter_endHeight h B dest = (Z.min (h + B) dest, h + B >=? dest).
Proof.
  intros Hh HB Hw. unfold iter_endHeight. rewrite add64_exact by lia.
  destruct (Z.geb_spec (h + B) dest); f_equal; lia.
Qed.

(** X7: in a forward epoch whose cursor, once the reorg check is
    through, is at height [h] below the destination, and with [h + B]
    within 64 bits, the header fetched is the one at [min (h + B) dest];
    after a callback that succeeded the epoch signals continue if
    [h + B < dest] and the latch is open, range-exhausted otherwise. *)
Theorem forward_epoch_end_candidate i w w1 evs1 i1 dest :
  ensureCurrentNotReorged i w = (w1, evs1, (i1, None)) ->
  endHeight i = Some dest ->
  0 <= blocksReadPerEpoch i ->
  Uint64 (Number (current i1)) + blocksReadPerEpoch i < two64 ->
  Uint64 (Number (current i1)) < dest ->
  let h := Uint64 (Number (current i1)) in
  let B := blocksReadPerEpoch i in
  exists w' r evs i' res,
    iter i w =
    (w', evs1 ++ EvHeaderByNumber (Some (Z.min (h + B) dest)) r :: evs, (i', res)) /\
    (forall s e acts, In (EvOnBlocks s e acts None) evs ->
       res = Some (if (h + B >=? dest) || isEnd i' then io_EOF else errContinue)).
Proof.
  intros Hens Hdest HB Hwrap Hlt h B.
  destruct (ensure_inv _ _ _ _ _ _ Hens) as [Hcfg _].
  destruct Hcfg as (_ & _ & _ & Hbatch & _ & Hend & _).
  pose proof (Uint64_range (Number (current i1))) as [Hlo _]. fold h in Hlo.
  unfold iter, bind. rewrite Hens, Hend, Hdest, Hbatch. simpl.
  fold h B. destruct (Z.geb_spec h dest); [lia|].
  rewrite (iter_endHeight_spec h B dest) by (subst h B; lia).
  open_calls.
  destruct (HeaderByNumber (client i1) (Some (Z.min (h + B) dest)) w1)
    as [w2 [eh|e]].
  - destruct (onBlocks i1 (current i1) eh w2) as [w3 [acts [e|]]]; simpl.
    + do 5 eexists. split; [reflexivity|].
      intros s0 e0 acts0 [Hev|[]]. discriminate.
    + destruct (isEnd (fold_left apply_action acts i1)) eqn:Hlatch; simpl.
      * do 5 eexists. split; [reflexivity|]. intros _ _ _ _.
        rewrite Hlatch, orb_true_r. reflexivity.
      * destruct (h + B >=? dest); simpl;
          do 5 eexists; (split; [reflexivity|]); intros _ _ _ _; simpl;
          rewrite ?Hlatch; reflexivity.
  - simpl. do 5 eexists. split; [reflexivity|]. intros s0 e0 acts0 [].
Qed.


(** X8: when the callback asks to end the iteration and succeeds
    without moving the cursor (the reorg check having found the cursor), a
    forward epoch leaves the cursor where it was, so the batch is not
    marked as processed, whereas a reverse epoch moves the cursor to the
    start header of the batch. *)
Theorem end_iteration_cursor i w w' evs i' res s e acts h cur e0 :
  iterFunc_of i i w = (w', evs, (i', res)) ->
  In (EvOnBlocks s e acts None) evs ->
  In CallEnd acts ->
  last_update acts = None ->
  In (EvHeaderByHash h (Some cur, e0)) evs ->
  res = Some io_EOF /\ isEnd i' = true /\
  current i' = (if reverse i then s else current i).
Proof.
  intros Hrun Hin Hend Hup Hh.
  destruct (iterFunc_of_inv _ _ _ _ _ _ _ _ _ _ Hrun Hin)
    as (i1 & _ & Hend1 & _ & Hsame & Hres). cbv zeta in Hres.
  specialize (Hsame _ _ _ Hh). subst i1.
  assert (Hlatch : isEnd (fold_left apply_action acts i) = true).
  { rewrite actions_isEnd. apply In_calls_end in Hend. rewrite Hend.
    apply orb_true_r. }
  destruct Hres as [Hres Hi']. split; [exact (Hres Hlatch)|].
  rewrite Hlatch in Hi'.
  destruct (reverse i); subst i'; simpl; (split; [exact Hlatch|]);
    [reflexivity | now rewrite actions_current, Hup].
Qed.

(** ** The driver *)

Lemma iterFunc_of_same_config i0 i : same_config i0 i -> iterFunc_of i0 = iterFunc_of i.
Proof.
  intros (_ & _ & _ & _ & _ & _ & _ & Hrev & _). unfold iterFunc_of.
  now rewrite Hrev.
Qed.

Lemma iterOp_frame i0 : forall fuel i w w' evs i' r,
  same_config i0 i ->
  iterOp fuel (iterFunc_of i0) i w = (w', evs, (i', r)) ->
  same_config i0 i' /\ (isEnd i = true -> isEnd i' = true) /\ waits evs = [].
Proof.
  induction fuel as [|fuel IH]; intros i w w' evs i' r Hcfg; simpl.
  - unfold ret. intros H. inversion H; subst. auto.
  - destruct (ctx i w) as [c|].
    + intros H. inversion H; subst. auto.
    + unfold bind.
      destruct (iterFunc_of i0 i w) as [[w1 evs1] [i1 res]] eqn:E.
      rewrite (iterFunc_of_same_config i0 i Hcfg) in E.
      destruct (epoch_frame _ _ _ _ _ _ E) as (Hc1 & Hl1 & _ & _ & Hw1 & _).
      assert (Hcfg1 : same_config i0 i1) by eauto using same_config_trans.
      assert (Hrec : forall w2 evs2 i2 r2,
                iterOp fuel (iterFunc_of i0) i1 w1 = (w2, evs2, (i2, r2)) ->
                (w2, evs1 ++ evs2, (i2, r2)) = (w', evs, (i', r)) ->
                same_config i0 i' /\ (isEnd i = true -> isEnd i' = true) /\
                waits evs = []).
      { intros w2 evs2 i2 r2 Hloop H. inversion H; subst.
        destruct (IH _ _ _ _ _ _ Hcfg1 Hloop) as (Hc2 & Hl2 & Hw2).
        rewrite waits_app, Hw1, Hw2. auto. }
      destruct res as [e|].
      * destruct (errors_Is e io_EOF);
          [|destruct (errors_Is e errContinue)].
        -- unfold ret. intros H. inversion H; subst.
           rewrite app_nil_r. auto.
        -- destruct (iterOp fuel (iterFunc_of i0) i1 w1) as [[w2 evs2] [i2 r2]] eqn:L.
           exact (Hrec _ _ _ _ eq_refl).
        -- unfold ret. intros H. inversion H; subst.
           rewrite app_nil_r. auto.
      * destruct (iterOp fuel (iterFunc_of i0) i1 w1) as [[w2 evs2] [i2 r2]] eqn:L.
        exact (Hrec _ _ _ _ eq_refl).
Qed.

Lemma backoff_Retry_frame i0 n interval : forall fuel i w w' evs i' r,
  same_config i0 i ->
  backoff_Retry timer_wait fuel (iterOp n (iterFunc_of i0)) interval i w
  = (w', evs, (i', r)) ->
  same_config i0 i' /\ (isEnd i = true -> isEnd i' = true) /\
  Forall (fun d => d = interval) (waits evs).
Proof.
  induction fuel as [|fuel IH]; intros i w w' evs i' r Hcfg; simpl.
  - unfold ret. intros H. inversion H; subst. auto.
  - unfold bind.
    destruct (iterOp n (iterFunc_of i0) i w) as [[w1 evs1] [i1 r1]] eqn:E.
    destruct (iterOp_frame i0 _ _ _ _ _ _ _ Hcfg E) as (Hc1 & Hl1 & Hw1).
    destruct r1 as [[e|]|].
    + destruct (as_Permanent e) as [inner|].
      * unfold ret. intros H. inversion H; subst.
        rewrite app_nil_r, Hw1. auto.
      * unfold wait.
        destruct (backoff_Retry timer_wait fuel (iterOp n (iterFunc_of i0))
                    interval i1 (timer_wait interval w1))
          as [[w2 evs2] [i2 r2]] eqn:R.
        intros H. inversion H; subst.
        destruct (IH _ _ _ _ _ _ Hc1 R) as (Hc2 & Hl2 & Hw2).
        rewrite waits_app, Hw1. simpl. auto.
    + unfold ret. intros H. inversion H; subst. rewrite app_nil_r, Hw1. auto.
    + unfold ret. intros H. inversion H; subst. rewrite app_nil_r, Hw1. auto.
Qed.

(** X9: whatever happens in a run of [Iter], only the cursor and the
    latch of the iterator change; the latch, once set, stays set; and every
    wait between two attempts lasts the retry interval of the iterator. *)
Theorem Iter_keeps_configuration fuel i w :
  same_config i (fst (snd (Iter timer_wait fuel i w))) /\
  (isEnd i = true -> isEnd (fst (snd (Iter timer_wait fuel i w))) = true) /\
  Forall (fun d => d = retryInterval i)
         (waits (snd (fst (Iter timer_wait fuel i w)))).
Proof.
  destruct (backoff_Retry timer_wait fuel (iterOp fuel (iterFunc_of i))
              (retryInterval i) i w) as [[w1 evs1] [i1 r1]] eqn:R.
  rewrite (Iter_of_Retry timer_wait _ _ _ _ _ _ _ R). simpl.
  exact (backoff_Retry_frame i fuel (retryInterval i) fuel i w _ _ _ _
           (same_config_refl i) R).
Qed.

(** X10: an epoch error that is or wraps [io.EOF], be it returned by
    the callback or by a lookup of the accessor, counts as the end of the
    range: [Iter] returns there, with no retry and no wait, and its result
    is the state of the context (nil unless canceled). *)
Theorem eof_error_ends_iteration fuel i w w' evs i' e :
  ctx i w = None ->
  iterFunc_of i i w = (w', evs, (i', Some e)) ->
  errors_Is e io_EOF = true ->
  Iter timer_wait (S fuel) i w = (w', evs, (i', Returned (ctx i w'))).
Proof.
  intros Hc Hrun He.
  destruct (epoch_frame _ _ _ _ _ _ Hrun) as ((Hctx & _) & _).
  rewrite (Iter_of_Retry timer_wait (S fuel) i w w' evs i' (Returned None)).
  - now rewrite Hctx.
  - apply backoff_Retry_nil. eapply iterOp_exhausted; eauto.
Qed.

(** X11: when the context is canceled by the time an epoch has
    signalled continue, no further epoch is begun: [Iter] returns the
    cancellation error and its log is that of the one epoch. *)
Theorem cancellation_after_epoch_stops_run fuel i w w' evs i' e c :
  ctx i w = None ->
  iterFunc_of i i w = (w', evs, (i', Some e)) ->
  errors_Is e io_EOF = false ->
  errors_Is e errContinue = true ->
  ctx i w' = Some c ->
  Iter timer_wait (S (S fuel)) i w = (w', evs, (i', Returned (Some c))).
Proof.
  intros Hc Hrun He Hcont Hcancel.
  destruct (epoch_frame _ _ _ _ _ _ Hrun) as ((Hctx & _) & _).
  rewrite (Iter_of_Retry timer_wait (S (S fuel)) i w w' evs i' (Returned None)).
  - now rewrite Hctx, Hcancel.
  - apply backoff_Retry_nil.
    rewrite (iterOp_continue (S fuel) _ _ _ _ _ _ _ Hc Hrun He Hcont).
    rewrite (iterOp_canceled fuel _ i' w' c) by (now rewrite Hctx).
    now rewrite app_nil_r.
Qed.

(** X12: an epoch that fails with an error that is neither a sentinel
    nor permanent is followed by one wait of the retry interval, and only
    then is the context looked at again: if it is canceled by then, [Iter]
    returns the cancellation error, the failure of the epoch being
    dropped. *)
Theorem failed_epoch_waits_before_cancellation fuel i w w' evs i' e c :
  ctx i w = None ->
  iterFunc_of i i w = (w', evs, (i', Some e)) ->
  errors_Is e io_EOF = false ->
  errors_Is e errContinue = false ->
  as_Permanent e = None ->
  ctx i (timer_wait (retryInterval i) w') = Some c ->
  Iter timer_wait (S (S fuel)) i w =
  (timer_wait (retryInterval i) w', evs ++ [EvBackOff (retryInterval i)],
   (i', Returned (Some c))).
Proof.
  intros Hc Hrun He Hcont Hperm Hcancel.
  destruct (epoch_frame _ _ _ _ _ _ Hrun) as ((Hctx & _) & _).
  assert (Hop : iterOp (S (S fuel)) (iterFunc_of i) i w
                = (w', evs, (i', Returned (Some e)))).
  { simpl. rewrite Hc. unfold bind. rewrite Hrun, He, Hcont. unfold ret.
    now rewrite app_nil_r. }
  rewrite (Iter_of_Retry timer_wait (S (S fuel)) i w
             (timer_wait (retryInterval i) w')
             (evs ++ [EvBackOff (retryInterval i)]) i' (Returned None)).
  - now rewrite Hctx, Hcancel.
  - change (backoff_Retry timer_wait (S (S fuel)) ?op ?d i w)
      with (bind (op i)
              (fun x => let '(i1, r) := x in
                 match r with
                 | OutOfFuel => ret (i1, OutOfFuel)
                 | Returned None => ret (i1, Returned None)
                 | Returned (Some e1) =>
                     match as_Permanent e1 with
                     | Some inner => ret (i1, Returned (Some inner))
                     | None => bind (wait timer_wait d)
                                 (fun _ => backoff_Retry timer_wait (S fuel) op d i1)
                     end
                 end) w).
    unfold bind at 1. rewrite Hop, Hperm. unfold bind, wait.
    rewrite (backoff_Retry_nil timer_wait fuel _ _ i'
               (timer_wait (retryInterval i) w')
               (timer_wait (retryInterval i) w') [] i').
    + reflexivity.
    + apply iterOp_canceled with (c := c). now rewrite Hctx.
Qed.

(** ** Reverse coverage *)

Section ReverseRun.

(** As for the forward run: one chain of headers that the node never
    drops, a callback that succeeds and leaves the capabilities alone, a
    context that is never canceled. *)
Variables (cl : EthClient World) (cb : OnBlocksFunc World)
          (ctx0 : context_Context World) (chain : Z -> Header).
Variables (S0 E B : Z).
Hypothesis Hchain : forall n, Number (chain n) = n.
Hypothesis Hnum : forall n w, snd (HeaderByNumber cl (Some n) w) = Ok (chain n).
Hypothesis Hhash : forall n w,
  exists h, snd (HeaderByHash cl (Hash (chain n)) w) = (Some h, None).
Hypothesis Hcb : forall s e w, snd (cb s e w) = ([], None).
Hypothesis Hctx : forall w, ctx0 w = None.
Hypothesis HS : 0 <= S0 <= E.
Hypothesis HE : E < two64.
Hypothesis HB : 1 <= B < two64.

Lemma reverse_epoch i w c :
  reverse_at cl cb ctx0 chain S0 B i c -> S0 < c <= E ->
  let n := Z.max S0 (c - B) in
  exists w' r,
    reverseIter i w =
    (w', [EvHeaderByHash (Hash (chain c)) r;
          EvHeaderByNumber (Some n) (Ok (chain n));
          EvOnBlocks (chain n) (chain c) [] None],
     (set_current i (chain n),
      Some (if c - B <=? S0 then io_EOF else errContinue))).
Proof.
  intros (Hcl & Hon & _ & Hstart & Hbatch & Hlatch & Hcur) Hc n.
  destruct (Hhash c w) as [h Hh].
  destruct (HeaderByHash cl (Hash (chain c)) w) as [w1 r1] eqn:E1.
  simpl in Hh. subst r1.
  assert (Hu : Uint64 (Number (current i)) = c).
  { rewrite Hcur, Hchain. apply Uint64_small. unfold is_uint64. lia. }
  unfold reverseIter, bind.
  rewrite (ensure_found i w w1 h None) by (rewrite ?Hcl, ?Hcur; congruence).
  rewrite Hstart, Hu, Hbatch. simpl.
  destruct (Z.leb_spec c S0); [lia|].
  assert (Hn : reverseIter_startHeight c B S0 = (n, c - B <=? S0)).
  { destruct (reverseIter_startHeight_spec c B S0) as [_ Hs];
      [unfold is_uint64; lia | unfold is_uint64; lia |].
    rewrite Hs. subst n.
    destruct (Z.ltb_spec B c), (Z.leb_spec (c - B) S0);
      try (destruct (Z.leb_spec 0 S0)); f_equal; lia. }
  rewrite Hn. open_calls. rewrite Hcl.
  specialize (Hnum n w1).
  destruct (HeaderByNumber cl (Some n) w1) as [w2 r2]. simpl in Hnum. subst r2.
  rewrite Hon. specialize (Hcb (chain n) (current i) w2).
  destruct (cb (chain n) (current i) w2) as [w3 r3]. simpl in Hcb. subst r3.
  simpl. rewrite Hlatch, Hcur. simpl.
  exists w3, (Some h, None).
  destruct (c - B <=? S0); reflexivity.
Qed.

Lemma reverse_loop : forall fuel c i w,
  reverse_at cl cb ctx0 chain S0 B i c -> S0 <= c <= E ->
  (Z.to_nat (c - S0) < fuel)%nat ->
  exists w' evs i',
    iterOp fuel reverseIter i w = (w', evs, (i', Returned None)) /\
    chained_down B S0 c (callback_pairs evs) /\ current i' = chain S0 /\
    ctx i' = ctx0 /\ waits evs = [].
Proof.
  induction fuel as [|fuel IH]; intros c i w Hi Hc Hfuel; [lia|].
  assert (Huc : Uint64 c = c) by (apply Uint64_small; unfold is_uint64; lia).
  assert (HuS : Uint64 S0 = S0) by (apply Uint64_small; unfold is_uint64; lia).
  pose proof Hi as (Hcl & Hon & Hcx & Hstart & Hbatch & Hlatch & Hcur).
  destruct (Z.eq_dec c S0) as [->|Hne].
  - destruct (Hhash S0 w) as [h Hh].
    destruct (HeaderByHash cl (Hash (chain S0)) w) as [w1 r1] eqn:E1.
    simpl in Hh. subst r1.
    assert (Hex : reverseIter i w =
                  (w1, [EvHeaderByHash (Hash (current i)) (Some h, None)],
                   (i, Some io_EOF))).
    { apply (reverseIter_exhausted i w w1 h None).
      - rewrite Hcl, Hcur. exact E1.
      - discriminate.
      - rewrite Hcur, Hchain, HuS, Hstart. lia. }
    exists w1, [EvHeaderByHash (Hash (current i)) (Some h, None)], i.
    split; [|now repeat split].
    apply iterOp_exhausted with (e := io_EOF); auto.
    rewrite Hcx. apply Hctx.
  - destruct (reverse_epoch i w c Hi ltac:(lia)) as (w1 & r & Hstep).
    cbv zeta in Hstep.
    simpl. rewrite Hcx, Hctx. unfold bind. rewrite Hstep.
    destruct (Z.leb_spec (c - B) S0) as [Hlast|Hmore].
    + simpl. replace (Z.max S0 (c - B)) with S0 by lia.
      do 3 eexists. split; [reflexivity|]. simpl.
      rewrite !Hchain, Huc, HuS. repeat split; auto. lia.
    + simpl. replace (Z.max S0 (c - B)) with (c - B) by lia.
      assert (Hi' : reverse_at cl cb ctx0 chain S0 B
                      (set_current i (chain (c - B))) (c - B)).
      { unfold reverse_at. simpl. tauto. }
      destruct (IH (c - B) _ w1 Hi' ltac:(lia) ltac:(lia))
        as (w' & evs & i' & Hloop & Hch & Hfin & Hcx' & Hw).
      rewrite Hloop. do 3 eexists. split; [reflexivity|].
      split; [|repeat split; assumption].
      simpl. rewrite Hchain, Hchain, Huc.
      rewrite (Uint64_small (c - B)) by (unfold is_uint64; lia).
      split; [reflexivity|].
      destruct (callback_pairs evs) as [|p rest] eqn:Hp.
      * simpl in Hch. lia.
      * split; [lia | exact Hch].
Qed.

Lemma constructed_reverse cfg w w0 evs0 it :
  Client cfg = Some cl -> OnBlocks cfg = Some cb ->
  StartHeight cfg = Some S0 -> EndHeight cfg = Some E ->
  MaxBlocksReadPerEpoch cfg = Some B -> Reverse cfg = true ->
  NewBlockBatchIterator ctx0 cfg w = (w0, evs0, Ok it) ->
  reverse_at cl cb ctx0 chain S0 B it E /\ reverse it = true.
Proof.
  intros Hcl Hon Hs He Hb Hrev. unfold NewBlockBatchIterator.
  rewrite Hcl, Hon, Hs, He, Hb, Hrev. open_calls.
  destruct (ChainID cl w) as [w1 [cid|e1]]; [|discriminate].
  destruct (S0 >? E); [discriminate|].
  destruct (HeaderByNumber cl (Some S0) w1) as [w2 [sh|e2]]; [|discriminate].
  cbn [andb]. specialize (Hnum E w2).
  destruct (HeaderByNumber cl (Some E) w2) as [w3 r3]. simpl in Hnum. subst r3.
  intros H. inversion H; subst. unfold reverse_at. simpl.
  rewrite (Uint64_small S0) by (unfold is_uint64; lia). tauto.
Qed.

(** X13: a reverse run from [E] down to [S0], with a batch size of at
    least one block, on a chain without reorgs, with no cancellation and a
    callback that succeeds without using a capability: [Iter] returns nil
    without a wait, the cursor ends on the start height, and the batches
    handed to the callback chain downwards from [E] to [S0]: each ends
    where the one before started, all but the last span [B] blocks, the
    last one starts at [S0] and spans at most [B]. *)
Theorem reverse_run_chains cfg w w0 evs0 it fuel :
  Client cfg = Some cl -> OnBlocks cfg = Some cb ->
  StartHeight cfg = Some S0 -> EndHeight cfg = Some E ->
  MaxBlocksReadPerEpoch cfg = Some B -> Reverse cfg = true ->
  NewBlockBatchIterator ctx0 cfg w = (w0, evs0, Ok it) ->
  (Z.to_nat (E - S0) < fuel)%nat ->
  exists w' evs i',
    Iter timer_wait fuel it w0 = (w', evs, (i', Returned None)) /\
    chained_down B S0 E (callback_pairs evs) /\
    current i' = chain S0 /\ waits evs = [].
Proof.
  intros Hcl Hon Hs He Hb Hrev Hnew Hfuel.
  destruct (constructed_reverse _ _ _ _ _ Hcl Hon Hs He Hb Hrev Hnew)
    as [Hit Hbwd].
  destruct (reverse_loop fuel E it w0 Hit ltac:(lia) Hfuel)
    as (w' & evs & i' & Hloop & Hch & Hfin & Hcx & Hw).
  exists w', evs, i'.
  destruct fuel as [|fuel]; [lia|].
  rewrite (Iter_of_Retry timer_wait (S fuel) it w0 w' evs i' (Returned None)).
  - rewrite Hcx, Hctx. auto.
  - apply backoff_Retry_nil. unfold iterFunc_of. rewrite Hbwd. exact Hloop.
Qed.

End ReverseRun.

End Further.

(** ** The further properties at work on the scenario *)

Import Cases.

Lemma construction_succeeds_only_if_witness :
  exists cl cb s cid sh eh,
    Client (config node plain 100 (Some 250) None true None) = Some cl /\
    OnBlocks (config node plain 100 (Some 250) None true None) = Some cb /\
    StartHeight (config node plain 100 (Some 250) None true None) = Some s /\
    (forall e, EndHeight (config node plain 100 (Some 250) None true None) = Some e ->
               s <= e) /\
    (Reverse (config node plain 100 (Some 250) None true None) = true ->
     EndHeight (config node plain 100 (Some 250) None true None) <> None) /\
    [EvChainID (Ok 167); EvHeaderByNumber (Some 100) (Ok (canon 100));
     EvHeaderByNumber (Some 250) (Ok (canon 250))] =
    [EvChainID (Ok cid); EvHeaderByNumber (Some s) (Ok sh);
     EvHeaderByNumber (EndHeight (config node plain 100 (Some 250) None true None))
                      (Ok eh)] /\
    client (constructed node plain 100 250 1000 true) = cl /\
    onBlocks (constructed node plain 100 250 1000 true) = cb /\
    ctx (constructed node plain 100 250 1000 true) = background /\
    chainID (constructed node plain 100 250 1000 true) = cid /\
    current (constructed node plain 100 250 1000 true) = eh /\
    reverse (constructed node plain 100 250 1000 true) = true /\
    isEnd (constructed node plain 100 250 1000 true) = false /\
    startHeight (constructed node plain 100 250 1000 true) = Uint64 s /\
    endHeight (constructed node plain 100 250 1000 true) = Some (Uint64 250) /\
    blocksReadPerEpoch (constructed node plain 100 250 1000 true) = 1000 /\
    retryInterval (constructed node plain 100 250 1000 true) = 12000000000.
Proof.
  apply (construction_succeeds_only_if background
           (config node plain 100 (Some 250) None true None) calm calm
           [EvChainID (Ok 167); EvHeaderByNumber (Some 100) (Ok (canon 100));
            EvHeaderByNumber (Some 250) (Ok (canon 250))]
           (constructed node plain 100 250 1000 true)).
  reflexivity.
Defined.

Lemma invalid_configuration_rejected_early_witness :
  (exists s e,
     StartHeight (config node plain 300 (Some 250) None false None) = Some s /\
     EndHeight (config node plain 300 (Some 250) None false None) = Some e /\ e < s) /\
  exists w' evs err,
    NewBlockBatchIterator background
      (config node plain 300 (Some 250) None false None) calm = (w', evs, Err err) /\
    (List.length evs <= 1)%nat /\
    forall n r, ~ In (EvHeaderByNumber n r) evs.
Proof.
  assert (H : exists s e,
     StartHeight (config node plain 300 (Some 250) None false None) = Some s /\
     EndHeight (config node plain 300 (Some 250) None false None) = Some e /\ e < s).
  { exists 300, 250. repeat split. }
  split; [exact H|].
  exact (proj2 (invalid_configuration_rejected_early background
                  (config node plain 300 (Some 250) None false None) calm)
               (or_intror H)).
Defined.

(** The cursor at height 100 is gone, the depth is 20: height 80. *)
Lemma reorg_rewinds_by_depth_witness :
  is_uint64 (reorgRewindDepth it_deep) /\
  exists w2 r,
    HeaderByNumber (client it_deep) (Some 80) after_reorg = (w2, r) /\
    ensureCurrentNotReorged it_deep after_reorg =
    (w2, [EvHeaderByHash 10100 (None, Some ethereum_NotFound);
          EvHeaderByNumber (Some 80) r],
     match r with
     | Ok h => (set_current it_deep h, None)
     | Err e => (it_deep, Some e)
     end) /\
    (forall e, r = Err e ->
       iterFunc_of it_deep it_deep after_reorg =
       (w2, [EvHeaderByHash 10100 (None, Some ethereum_NotFound);
             EvHeaderByNumber (Some 80) r],
        (it_deep, Some (fmt_Errorf reorg_check_failed e)))).
Proof.
  assert (Hd : is_uint64 (reorgRewindDepth it_deep)).
  { vm_compute. split; [discriminate | reflexivity]. }
  split; [exact Hd|].
  apply (reorg_rewinds_by_depth it_deep after_reorg after_reorg
           (Some ethereum_NotFound) Hd eq_refl).
  intros e H. inversion H. reflexivity.
Defined.

Lemma reorg_check_error_fails_epoch_witness :
  is_not_found (errors_New "connection refused") = false /\
  iterFunc_of (constructed broken plain 100 250 100 false)
              (constructed broken plain 100 250 100 false) calm =
  (calm, [EvHeaderByHash 10100 (None, Some (errors_New "connection refused"))],
   (constructed broken plain 100 250 100 false,
    Some (fmt_Errorf reorg_check_failed (errors_New "connection refused")))).
Proof.
  split; [reflexivity|].
  apply (reorg_check_error_fails_epoch
           (constructed broken plain 100 250 100 false) calm calm None
           (errors_New "connection refused")); reflexivity.
Defined.

Lemma epoch_without_callback_changes_nothing_witness :
  callback_pairs [EvHeaderByHash 10250 (Some (canon 250), None)] = [] /\
  set_current (it_fwd plain) (canon 250) = set_current (it_fwd plain) (canon 250).
Proof.
  split; [reflexivity|].
  apply (epoch_without_callback_changes_nothing
           (set_current (it_fwd plain) (canon 250)) calm calm
           [EvHeaderByHash 10250 (Some (canon 250), None)]
           (set_current (it_fwd plain) (canon 250)) (Some io_EOF)
           10250 (canon 250) None).
  - reflexivity.
  - reflexivity.
  - simpl. auto.
Defined.

Lemma forward_epoch_end_candidate_witness :
  0 <= blocksReadPerEpoch (it_fwd plain) /\
  Uint64 (Number (current (it_fwd plain))) < 250 /\
  exists w' r evs i' res,
    iter (it_fwd plain) calm =
    (w', [EvHeaderByHash 10100 (Some (canon 100), None)]
         ++ EvHeaderByNumber (Some (Z.min (100 + 100) 250)) r :: evs, (i', res)) /\
    (forall s e acts, In (EvOnBlocks s e acts None) evs ->
       res = Some (if (100 + 100 >=? 250) || isEnd i' then io_EOF else errContinue)).
Proof.
  split; [vm_compute; discriminate|]. split; [reflexivity|].
  apply (forward_epoch_end_candidate (it_fwd plain) calm calm
           [EvHeaderByHash 10100 (Some (canon 100), None)] (it_fwd plain) 250).
  - reflexivity.
  - reflexivity.
  - vm_compute. discriminate.
  - reflexivity.
  - reflexivity.
Defined.

Lemma end_iteration_cursor_witness :
  In CallEnd [CallEnd] /\ last_update [CallEnd] = None /\
  (Some io_EOF = Some io_EOF /\
   isEnd (set_isEnd (it_fwd ending) true) = true /\
   current (set_isEnd (it_fwd ending) true) = current (it_fwd ending)).
Proof.
  split; [simpl; auto|]. split; [reflexivity|].
  apply (end_iteration_cursor (it_fwd ending) calm calm
           [EvHeaderByHash 10100 (Some (canon 100), None);
            EvHeaderByNumber (Some 200) (Ok (canon 200));
            EvOnBlocks (canon 100) (canon 200) [CallEnd] None]
           (set_isEnd (it_fwd ending) true) (Some io_EOF)
           (canon 100) (canon 200) [CallEnd] 10100 (canon 100) None).
  - reflexivity.
  - simpl. auto.
  - simpl. auto.
  - reflexivity.
  - simpl. auto.
Defined.

Lemma Iter_keeps_configuration_witness :
  isEnd (set_isEnd (it_fwd plain) true) = true /\
  isEnd (fst (snd (Iter no_wait 3 (set_isEnd (it_fwd plain) true) calm))) = true.
Proof.
  split; [reflexivity|].
  apply (proj1 (proj2 (Iter_keeps_configuration no_wait 3
                         (set_isEnd (it_fwd plain) true) calm))).
  reflexivity.
Defined.

Lemma eof_error_ends_iteration_witness :
  errors_Is (fmt_Errorf "done: " io_EOF) io_EOF = true /\
  Iter no_wait 1 (it_fwd quitting) calm =
  (calm,
   [EvHeaderByHash 10100 (Some (canon 100), None);
    EvHeaderByNumber (Some 200) (Ok (canon 200));
    EvOnBlocks (canon 100) (canon 200) [] (Some (fmt_Errorf "done: " io_EOF))],
   (it_fwd quitting, Returned (ctx (it_fwd quitting) calm))).
Proof.
  split; [reflexivity|].
  apply (eof_error_ends_iteration no_wait 0 (it_fwd quitting) calm calm
           [EvHeaderByHash 10100 (Some (canon 100), None);
            EvHeaderByNumber (Some 200) (Ok (canon 200));
            EvOnBlocks (canon 100) (canon 200) []
                       (Some (fmt_Errorf "done: " io_EOF))]
           (it_fwd quitting) (fmt_Errorf "done: " io_EOF));
    reflexivity.
Defined.

Lemma cancellation_after_epoch_stops_run_witness :
  ctx (it_fwd canceling) calm = None /\
  ctx (it_fwd canceling) (mkWorld true false) = Some context_Canceled /\
  Iter no_wait 2 (it_fwd canceling) calm =
  (mkWorld true false,
   [EvHeaderByHash 10100 (Some (canon 100), None);
    EvHeaderByNumber (Some 200) (Ok (canon 200));
    EvOnBlocks (canon 100) (canon 200) [] None],
   (set_current (it_fwd canceling) (canon 200), Returned (Some context_Canceled))).
Proof.
  split; [reflexivity|]. split; [reflexivity|].
  apply (cancellation_after_epoch_stops_run no_wait 0 (it_fwd canceling) calm
           (mkWorld true false)
           [EvHeaderByHash 10100 (Some (canon 100), None);
            EvHeaderByNumber (Some 200) (Ok (canon 200));
            EvOnBlocks (canon 100) (canon 200) [] None]
           (set_current (it_fwd canceling) (canon 200)) errContinue
           context_Canceled);
    reflexivity.
Defined.

Lemma failed_epoch_waits_before_cancellation_witness :
  as_Permanent (errors_New "no luck") = None /\
  Iter no_wait 2 (it_fwd failing_canceled) calm =
  (mkWorld true false,
   [EvHeaderByHash 10100 (Some (canon 100), None);
    EvHeaderByNumber (Some 200) (Ok (canon 200));
    EvOnBlocks (canon 100) (canon 200) [] (Some (errors_New "no luck"))]
   ++ [EvBackOff (retryInterval (it_fwd failing_canceled))],
   (it_fwd failing_canceled, Returned (Some context_Canceled))).
Proof.
  split; [reflexivity|].
  apply (failed_epoch_waits_before_cancellation no_wait 0
           (it_fwd failing_canceled) calm (mkWorld true false)
           [EvHeaderByHash 10100 (Some (canon 100), None);
            EvHeaderByNumber (Some 200) (Ok (canon 200));
            EvOnBlocks (canon 100) (canon 200) [] (Some (errors_New "no luck"))]
           (it_fwd failing_canceled) (errors_New "no luck") context_Canceled);
    reflexivity.
Defined.


(** From 250 down to 100 in batches of 100. *)
Lemma reverse_run_chains_witness :
  0 <= 100 <= 250 /\ 250 < two64 /\ 1 <= 100 < two64 /\
  exists w' evs i',
    Iter no_wait 151 (constructed_with never steady plain 100 250 100 true) calm
    = (w', evs, (i', Returned None)) /\
    chained_down 100 100 250 (callback_pairs evs) /\
    current i' = canon 100 /\ waits evs = [].
Proof.
  split; [lia|]. split; [reflexivity|].
  split; [split; [lia | reflexivity]|].
  apply (reverse_run_chains no_wait steady plain never canon 100 250 100)
    with (cfg := config steady plain 100 (Some 250) (Some 100) true None)
         (w := calm)
         (evs0 := [EvChainID (Ok 167); EvHeaderByNumber (Some 100) (Ok (canon 100));
                   EvHeaderByNumber (Some 250) (Ok (canon 250))]).
  - reflexivity.
  - reflexivity.
  - intros n w. exists (canon n). unfold canon. simpl.
    replace (n + 10000 - 10000) with n by lia. reflexivity.
  - reflexivity.
  - reflexivity.
  - lia.
  - reflexivity.
  - split; [lia | reflexivity].
  - reflexivity.
  - reflexivity.
  - reflexivity.
  - reflexivity.
  - reflexivity.
  - reflexivity.
  - reflexivity.
  - simpl. lia.
Defined.

(** * Properties of the SGX proof producer *)

Module ProducerFacts.

Import Producer.

Section Facts.

Context {World Address Meta : Type}.
Variable env : Env World Address.

Implicit Types (s : SGXProofProducer World Address Meta)
               (opts : ProofRequestOptions Address) (w : World)
               (evs : list (@Event Address Meta)).

Ltac break_inner :=
  match goal with
  | |- context [match ?x with _ => _ end] =>
      lazymatch x with
      | context [match _ with _ => _ end] => fail
      | _ => destruct x eqn:?
      end
  end.

Ltac open_calls :=
  unfold call_Post, call_ReadAll, call_Close, bind, ret in *.

Lemma producer_waits_app evs1 evs2 : waits (evs1 ++ evs2) = waits evs1 ++ waits evs2.
Proof.
  induction evs1 as [|ev evs1 IH]; [reflexivity|].
  destruct ev; simpl; rewrite IH; reflexivity.
Qed.

Lemma producer_sent_app evs1 evs2 : sent (evs1 ++ evs2) = sent evs1 ++ sent evs2.
Proof.
  induction evs1 as [|ev evs1 IH]; [reflexivity|].
  destruct ev; simpl; rewrite IH; reflexivity.
Qed.

(** The shapes the log of one request can take. *)
Lemma requestProof_shapes s opts w w' evs r :
  requestProof env s opts w = (w', evs, r) ->
  (evs = [] /\ w' = w /\ (r = Panicked \/ exists e, r = Returned (Err e))) \/
  (exists body e,
     evs = [EvPost (RaikoHostEndpoint s) "application/json" body None] /\
     r = Returned (Err e)) \/
  (exists body st e,
     st <> 200 /\
     evs = [EvPost (RaikoHostEndpoint s) "application/json" body (Some st);
            EvClose] /\
     r = Returned (Err e)) \/
  (exists body rb out,
     evs = [EvPost (RaikoHostEndpoint s) "application/json" body (Some 200);
            EvReadAll rb; EvClose] /\
     r = Returned out /\
     match rb with
     | Err e => out = Err e
     | Ok bytes =>
         match json_Unmarshal env bytes with
         | Err e => out = Err e
         | Ok o =>
             match Error_ o with
             | Some err => out = Err (errors_New (Message err))
             | None => out = Ok (Result o)
             end
         end
     end).
Proof.
  unfold requestProof. open_calls.
  destruct (request_body env s opts) as [reqBody|];
    [|intros H; inversion H; subst; left; auto].
  destruct (json_Marshal env reqBody) as [body|e];
    [|intros H; inversion H; subst; left; eauto].
  destruct (http_Post env (RaikoHostEndpoint s) "application/json" body w)
    as [w1 [res|e]];
    [|intros H; inversion H; subst; right; left; eauto].
  destruct (Z.eqb_spec (StatusCode res) 200) as [Hst|Hst]; simpl.
  - destruct (ReadAll res w1) as [w2 [bytes|e]]; simpl.
    + destruct (json_Unmarshal env bytes) as [o|e] eqn:Hj; simpl.
      * destruct (Error_ o) as [err|] eqn:He; simpl;
          intros H; inversion H; subst; do 3 right;
          exists body, (Ok bytes); eexists; rewrite Hst;
          (split; [reflexivity|]); (split; [reflexivity|]);
          rewrite Hj, He; reflexivity.
      * intros H; inversion H; subst. do 3 right.
        exists body, (Ok bytes). eexists. rewrite Hst.
        split; [reflexivity|]. split; [reflexivity|]. now rewrite Hj.
    + intros H; inversion H; subst. do 3 right.
      exists body, (Err e). eexists. rewrite Hst.
      split; [reflexivity|]. split; reflexivity.
  - intros H; inversion H; subst. right. right. left.
    exists body, (StatusCode res). eexists. split; [exact Hst|].
    split; reflexivity.
Qed.

(** X14: a request makes at most one POST, to the raiko host endpoint
    and as [application/json]; the response body is read only when the
    status is 200, and it is closed, once and last, exactly when the POST
    came back with a response.  Nothing is ever sent or waited for. *)
Theorem requestProof_posts_once_and_closes s opts w :
  let evs := snd (fst (requestProof env s opts w)) in
  evs = [] \/
  (exists body, evs = [EvPost (RaikoHostEndpoint s) "application/json" body None]) \/
  (exists body st,
     st <> 200 /\
     evs = [EvPost (RaikoHostEndpoint s) "application/json" body (Some st);
            EvClose]) \/
  (exists body rb,
     evs = [EvPost (RaikoHostEndpoint s) "application/json" body (Some 200);
            EvReadAll rb; EvClose]).
Proof.
  destruct (requestProof env s opts w) as [[w' evs] r] eqn:E. simpl.
  destruct (requestProof_shapes _ _ _ _ _ _ E)
    as [(-> & _)|[(body & e & -> & _)|[(body & st & e & Hst & -> & _)
       |(body & rb & out & -> & _)]]]; eauto 10.
Qed.

Lemma requestProof_ok_inv s opts w w' evs out :
  requestProof env s opts w = (w', evs, Returned (Ok out)) ->
  exists body bytes o,
    evs = [EvPost (RaikoHostEndpoint s) "application/json" body (Some 200);
           EvReadAll (Ok bytes); EvClose] /\
    json_Unmarshal env bytes = Ok o /\
    Error_ o = None /\ out = Result o.
Proof.
  intros E.
  destruct (requestProof_shapes _ _ _ _ _ _ E)
    as [(_ & _ & [H|[e H]])|[(body & e & _ & H)|[(body & st & e & _ & _ & H)
       |(body & rb & out' & -> & H & Hout)]]]; try discriminate.
  inversion H; subst out'. destruct rb as [bytes|e]; [|discriminate].
  destruct (json_Unmarshal env bytes) as [o|e] eqn:Hj; [|discriminate].
  destruct (Error_ o) as [err|] eqn:He; [discriminate|].
  inversion Hout; subst. now exists body, bytes, o.
Qed.

(** X15: a request returns an output, or the absence of one, only when
    the POST came back with status 200, the body could be read and parsed,
    and the response had no [error] member; an [error] member makes the
    request fail with its message, whatever [result] says. *)
Theorem requestProof_output_only_if s opts w w' evs out :
  requestProof env s opts w = (w', evs, Returned (Ok out)) ->
  exists body bytes o,
    evs = [EvPost (RaikoHostEndpoint s) "application/json" body (Some 200);
           EvReadAll (Ok bytes); EvClose] /\
    json_Unmarshal env bytes = Ok o /\
    Error_ o = None /\ out = Result o.
Proof.
  intros E.
  destruct (requestProof_shapes _ _ _ _ _ _ E)
    as [(_ & _ & [H|[e H]])|[(body & e & _ & H)|[(body & st & e & _ & _ & H)
       |(body & rb & out' & -> & H & Hout)]]]; try discriminate.
  inversion H; subst out'. destruct rb as [bytes|e]; [|discriminate].
  destruct (json_Unmarshal env bytes) as [o|e] eqn:Hj; [|discriminate].
  destruct (Error_ o) as [err|] eqn:He; [discriminate|].
  inversion Hout; subst. now exists body, bytes, o.
Qed.

Lemma requestProof_quiet s opts w :
  waits (snd (fst (requestProof env s opts w))) = [] /\
  sent (snd (fst (requestProof env s opts w))) = [].
Proof.
  destruct (requestProof env s opts w) as [[w' evs] r] eqn:E. simpl.
  destruct (requestProof_shapes _ _ _ _ _ _ E)
    as [(-> & _)|[(body & e & -> & _)|[(body & st & e & Hst & -> & _)
       |(body & rb & out & -> & _)]]]; split; reflexivity.
Qed.

Lemma poll_inv ctx s opts proof w w' evs p r :
  poll env ctx s opts proof w = (w', evs, (p, r)) ->
  waits evs = [] /\ sent evs = [] /\
  match r with
  | Returned None =>
      (p = proof /\ evs = [] /\ w' = w /\ ctx w <> None) \/
      (ctx w = None /\ decoded_from env s evs p)
  | _ => p = proof /\ ctx w = None
  end.
Proof.
  unfold poll. destruct (ctx w) as [c|] eqn:Hc.
  - intros H. inversion H; subst. repeat split. left. repeat split. congruence.
  - unfold bind.
    pose proof (requestProof_quiet s opts w) as [Hw Hs].
    destruct (requestProof env s opts w) as [[w1 evs1] r1] eqn:E.
    simpl in Hw, Hs.
    destruct r1 as [[[out|]|e]| |]; unfold ret;
      try (intros H; inversion H; subst; rewrite app_nil_r; auto).
    destruct (slice_from 2 (out_Proof out)) as [hex|] eqn:Hx;
      intros H; inversion H; subst; rewrite app_nil_r; auto.
    repeat split; auto. right. split; [reflexivity|].
    destruct (requestProof_ok_inv _ _ _ _ _ _ E)
      as (body & bytes & o & -> & Hj & He & Ho).
    exists [], body, bytes, o, out, hex. repeat split; auto.
Qed.

Lemma retry_poll_inv ctx s opts d : forall fuel proof w w' evs p r,
  backoff_Retry env fuel (poll env ctx s opts) d proof w = (w', evs, (p, r)) ->
  Forall (fun x => x = d) (waits evs) /\ sent evs = [] /\
  match r with
  | Returned None => (p = proof /\ ctx w' <> None) \/ decoded_from env s evs p
  | _ => p = proof
  end.
Proof.
  induction fuel as [|fuel IH]; intros proof w w' evs p r; simpl.
  - unfold ret. intros H. inversion H; subst. auto.
  - unfold bind.
    destruct (poll env ctx s opts proof w) as [[w1 evs1] [p1 r1]] eqn:E.
    destruct (poll_inv _ _ _ _ _ _ _ _ _ E) as (Hw1 & Hs1 & Hr1).
    destruct r1 as [[e|]| |]; unfold ret.
    + destruct Hr1 as [-> _].
      destruct (as_Permanent e) as [inner|].
      * intros H. inversion H; subst. rewrite app_nil_r, Hw1. auto.
      * unfold wait.
        destruct (backoff_Retry env fuel (poll env ctx s opts) d proof
                    (timer_wait env d w1)) as [[w2 evs2] [p2 r2]] eqn:R.
        intros H. inversion H; subst.
        destruct (IH _ _ _ _ _ _ R) as (Hw2 & Hs2 & Hr2).
        rewrite producer_waits_app, producer_sent_app, Hw1, Hs1. simpl.
        split; [auto|]. split; [exact Hs2|].
        destruct r as [[e'|]| |]; auto.
        destruct Hr2 as [Hc|(pre & body & bytes & o & out & hex & -> & Hrest)];
          [left; exact Hc|].
        right. exists (evs1 ++ EvWait d :: pre), body, bytes, o, out, hex.
        split; [now rewrite <- app_assoc|exact Hrest].
    + intros H. inversion H; subst. rewrite app_nil_r, Hw1.
      repeat split; auto.
      destruct Hr1 as [(-> & _ & -> & Hc)|[_ Hd]]; [left; auto | right; exact Hd].
    + destruct Hr1 as [-> _].
      intros H. inversion H; subst. rewrite app_nil_r, Hw1. auto.
    + destruct Hr1 as [-> _].
      intros H. inversion H; subst. rewrite app_nil_r, Hw1. auto.
Qed.

(** X16: when [callProverDaemon] returns without error, its proof is
    the hex decoding of the proof string, less its first two characters, of
    the response to its last request, a response with status 200 and no
    [error] member; or it is nil, and then the context is canceled.  With an
    error it returns no proof.  Every wait between two polls lasts the
    polling interval. *)
Theorem callProverDaemon_result fuel ctx s opts w w' evs proof err :
  callProverDaemon env fuel ctx s opts w = (w', evs, Returned (proof, err)) ->
  Forall (fun x => x = proofPollingInterval env) (waits evs) /\
  match err with
  | Some _ => proof = None
  | None => (proof = None /\ ctx w' <> None) \/ decoded_from env s evs proof
  end.
Proof.
  unfold callProverDaemon, bind.
  destruct (backoff_Retry env fuel (poll env ctx s opts) (proofPollingInterval env)
              None w) as [[w1 evs1] [p1 r1]] eqn:R.
  destruct (retry_poll_inv _ _ _ _ _ _ _ _ _ _ _ R) as (Hw & _ & Hr).
  destruct r1 as [[e|]| |]; unfold ret; intros H; inversion H; subst;
    rewrite app_nil_r; auto.
Qed.

(** X17: on a context that is canceled, [callProverDaemon] makes no
    request and returns a nil proof with a nil error, and [RequestProof]
    (with no dummy producer) takes it for a proof: it sends a result whose
    proof is nil, counts it, and returns nil. *)
Theorem canceled_request_sends_nil_proof fuel ctx s opts blockID
  (meta : Meta) header w c :
  ctx w = Some c ->
  DummyProofProducer s = None ->
  callProverDaemon env (S fuel) ctx s opts w = (w, [], Returned (None, None)) /\
  RequestProof env (S fuel) s ctx opts blockID meta header w =
  (w, [EvSend {| pwh_BlockID := blockID; pwh_Header := header;
                 pwh_Meta := meta; pwh_Proof := None; pwh_Degree := 0;
                 pwh_Opts := opts; pwh_Tier := TierSgxID env |};
       EvCounterInc],
   Returned None).
Proof.
  intros Hc Hd.
  assert (Hcall : callProverDaemon env (S fuel) ctx s opts w
                  = (w, [], Returned (None, None))).
  { unfold callProverDaemon, bind. simpl. unfold bind, poll. rewrite Hc.
    reflexivity. }
  split; [exact Hcall|].
  unfold RequestProof. rewrite Hd. unfold bind. rewrite Hcall. reflexivity.
Qed.

(** X18: a result whose proof string has fewer than two characters
    makes the producer panic on the slice that cuts the [0x] off: nothing
    is sent, nothing is returned. *)
Theorem short_proof_panics fuel ctx s opts blockID (meta : Meta) header
  w w' evs out :
  ctx w = None ->
  DummyProofProducer s = None ->
  requestProof env s opts w = (w', evs, Returned (Ok (Some out))) ->
  (String.length (out_Proof out) < 2)%nat ->
  callProverDaemon env (S fuel) ctx s opts w = (w', evs, Panicked) /\
  RequestProof env (S fuel) s ctx opts blockID meta header w = (w', evs, Panicked).
Proof.
  intros Hc Hd Hreq Hlen.
  assert (Hx : slice_from 2 (out_Proof out) = None).
  { unfold slice_from. destruct (Nat.ltb_spec (String.length (out_Proof out)) 2);
      [reflexivity | lia]. }
  assert (Hcall : callProverDaemon env (S fuel) ctx s opts w = (w', evs, Panicked)).
  { unfold callProverDaemon, bind. simpl. unfold bind, poll. rewrite Hc.
    unfold bind. rewrite Hreq, Hx. unfold ret. simpl.
    now rewrite !app_nil_r. }
  split; [exact Hcall|].
  unfold RequestProof. rewrite Hd. unfold bind. rewrite Hcall. unfold ret.
  now rewrite app_nil_r.
Qed.

(** X19: while the context is live, a request that fails with an error
    that is not permanent, or that comes back without result and without
    error (the proof is being generated), is followed by one wait of the
    polling interval and the next poll; the daemon is polled again however
    often this happens. *)
Theorem unfinished_proof_is_polled_again fuel ctx s opts w w' evs r :
  ctx w = None ->
  requestProof env s opts w = (w', evs, Returned r) ->
  (r = Ok None /\ as_Permanent (errProofGenerating env) = None) \/
  (exists e, r = Err e /\ as_Permanent e = None) ->
  callProverDaemon env (S fuel) ctx s opts w =
  (let '(w2, evs2, x) :=
     callProverDaemon env fuel ctx s opts
                      (timer_wait env (proofPollingInterval env) w') in
   (w2, evs ++ EvWait (proofPollingInterval env) :: evs2, x)).
Proof.
  intros Hc Hreq Hr.
  assert (Hpoll : exists e, as_Permanent e = None /\
            poll env ctx s opts None w = (w', evs, (None, Returned (Some e)))).
  { unfold poll. rewrite Hc. unfold bind. rewrite Hreq.
    destruct Hr as [[-> Hp]|(e & -> & Hp)]; eexists; (split; [exact Hp|]);
      unfold ret; now rewrite app_nil_r. }
  destruct Hpoll as (e & Hp & Hpoll).
  unfold callProverDaemon, bind.
  change (backoff_Retry env (S fuel) ?op ?d None w)
    with (bind (op None)
            (fun x => let '(st', r0) := x in
               match r0 with
               | Returned None => ret (st', Returned None)
               | Returned (Some e0) =>
                   match as_Permanent e0 with
                   | Some inner => ret (st', Returned (Some inner))
                   | None => bind (wait env d)
                               (fun _ => backoff_Retry env fuel op d st')
                   end
               | Panicked => ret (st', Panicked)
               | OutOfFuel => ret (st', OutOfFuel)
               end) w).
  unfold bind at 1. rewrite Hpoll, Hp. unfold bind, wait.
  destruct (backoff_Retry env fuel (poll env ctx s opts) (proofPollingInterval env)
              None (timer_wait env (proofPollingInterval env) w'))
    as [[w2 evs2] [p2 r2]].
  destruct r2 as [[e2|]| |]; unfold ret; simpl;
    rewrite ?app_nil_r, <- ?app_assoc; reflexivity.
Qed.

(** X20: with a dummy producer, [RequestProof] makes no request: it
    hands the call, with the SGX tier, to the dummy and returns its answer.
    Without one, it sends a result exactly when it returns nil, one result,
    as the last thing before it counts it, with the block, header, metadata
    and options it was given, degree 0 and the SGX tier; when it fails or
    panics nothing has been sent. *)
Theorem RequestProof_sends_once fuel s ctx opts blockID (meta : Meta) header w :
  (forall d, DummyProofProducer s = Some d ->
     RequestProof env fuel s ctx opts blockID meta header w =
     (fst (d opts blockID meta header (TierSgxID env) w),
      [EvDummy (TierSgxID env) (snd (d opts blockID meta header (TierSgxID env) w))],
      Returned (snd (d opts blockID meta header (TierSgxID env) w)))) /\
  (DummyProofProducer s = None ->
   forall w' evs r,
     RequestProof env fuel s ctx opts blockID meta header w = (w', evs, r) ->
     match r with
     | Returned None =>
         exists pre proof,
           evs = pre ++ [EvSend {| pwh_BlockID := blockID; pwh_Header := header;
                                   pwh_Meta := meta; pwh_Proof := proof;
                                   pwh_Degree := 0; pwh_Opts := opts;
                                   pwh_Tier := TierSgxID env |};
                         EvCounterInc] /\
           sent pre = [] /\
           callProverDaemon env fuel ctx s opts w = (w', pre, Returned (proof, None))
     | _ => sent evs = []
     end).
Proof.
  split.
  - intros d Hd. unfold RequestProof, call_Dummy, bind, ret. rewrite Hd.
    destruct (d opts blockID meta header (Tier env s) w) as [w1 r1] eqn:E.
    unfold Tier in E. rewrite E. reflexivity.
  - intros Hd w' evs r. unfold RequestProof. rewrite Hd. unfold bind.
    destruct (callProverDaemon env fuel ctx s opts w) as [[w1 evs1] r1] eqn:E.
    assert (Hs : sent evs1 = []).
    { revert E. unfold callProverDaemon, bind.
      destruct (backoff_Retry env fuel (poll env ctx s opts)
                  (proofPollingInterval env) None w)
        as [[w2 evs2] [p2 r2]] eqn:R.
      destruct (retry_poll_inv _ _ _ _ _ _ _ _ _ _ _ R) as (_ & Hs2 & _).
      destruct r2 as [[e|]| |]; unfold ret; intros H; inversion H; subst;
        now rewrite app_nil_r. }
    destruct r1 as [[proof [e|]]| |]; unfold ret, send, counter_inc; simpl;
      intros H; inversion H; subst; rewrite ?app_nil_r; auto.
    exists evs1, proof. auto.
Qed.

End Facts.



(** ** The producer against the host of the scenario *)

Import ProducerScenario.

Lemma requestProof_output_only_if_witness :
  exists body bytes o,
    snd (fst (requestProof host producer options 2%nat)) =
    [EvPost (RaikoHostEndpoint producer) "application/json" body (Some 200);
     EvReadAll (Ok bytes); EvClose] /\
    json_Unmarshal host bytes = Ok o /\ Error_ o = None /\
    Some {| out_Type := "Sgx"; out_Proof := "0xc0de" |} = Result o.
Proof.
  apply (requestProof_output_only_if host producer options 2%nat 3%nat
           (snd (fst (requestProof host producer options 2%nat)))
           (Some {| out_Type := "Sgx"; out_Proof := "0xc0de" |})).
  reflexivity.
Defined.

(** Two polls find the proof being generated, the third one gets it. *)
Lemma callProverDaemon_result_witness :
  Forall (fun x => x = proofPollingInterval host)
         (waits (snd (fst (callProverDaemon host 3 live producer options 0%nat)))) /\
  ((Some (common_Hex2Bytes host "c0de") = None /\ live 3%nat <> None) \/
   decoded_from host producer
     (snd (fst (callProverDaemon host 3 live producer options 0%nat)))
     (Some (common_Hex2Bytes host "c0de"))).
Proof.
  apply (callProverDaemon_result host 3 live producer options 0%nat 3%nat
           (snd (fst (callProverDaemon host 3 live producer options 0%nat)))
           (Some (common_Hex2Bytes host "c0de")) None).
  reflexivity.
Defined.

Lemma canceled_request_sends_nil_proof_witness :
  dead 0%nat = Some context_Canceled /\
  DummyProofProducer producer = None /\
  RequestProof host 1 producer dead options (Some 32) tt (mkHeader 256 1) 0%nat =
  (0%nat,
   [EvSend {| pwh_BlockID := Some 32; pwh_Header := mkHeader 256 1;
              pwh_Meta := tt; pwh_Proof := None; pwh_Degree := 0;
              pwh_Opts := options; pwh_Tier := TierSgxID host |};
    EvCounterInc],
   Returned None).
Proof.
  split; [reflexivity|]. split; [reflexivity|].
  apply (canceled_request_sends_nil_proof host 0 dead producer options (Some 32)
           tt (mkHeader 256 1) 0%nat context_Canceled); reflexivity.
Defined.

Lemma short_proof_panics_witness :
  (String.length "0" < 2)%nat /\
  RequestProof curt 1 producer live options (Some 32) tt (mkHeader 256 1) 0%nat =
  (1%nat,
   [EvPost "http://raiko" "application/json" "request" (Some 200);
    EvReadAll (Ok "0"); EvClose],
   Panicked).
Proof.
  split; [simpl; lia|].
  apply (short_proof_panics curt 0 live producer options (Some 32) tt
           (mkHeader 256 1) 0%nat 1%nat
           [EvPost "http://raiko" "application/json" "request" (Some 200);
            EvReadAll (Ok "0"); EvClose]
           {| out_Type := "Sgx"; out_Proof := "0" |}).
  - reflexivity.
  - reflexivity.
  - reflexivity.
  - simpl. lia.
Defined.

Lemma unfinished_proof_is_polled_again_witness :
  as_Permanent (errProofGenerating host) = None /\
  callProverDaemon host 3 live producer options 0%nat =
  (let '(w2, evs2, x) :=
     callProverDaemon host 2 live producer options
                      (timer_wait host (proofPollingInterval host) 1%nat) in
   (w2,
    [EvPost "http://raiko" "application/json" "request" (Some 200);
     EvReadAll (Ok "generating"); EvClose]
    ++ EvWait (proofPollingInterval host) :: evs2, x)).
Proof.
  split; [reflexivity|].
  apply (unfinished_proof_is_polled_again host 2 live producer options 0%nat 1%nat
           [EvPost "http://raiko" "application/json" "request" (Some 200);
            EvReadAll (Ok "generating"); EvClose] (Ok None)).
  - reflexivity.
  - reflexivity.
  - left. split; reflexivity.
Defined.

Lemma RequestProof_sends_once_witness :
  DummyProofProducer producer = None /\
  exists pre proof,
    snd (fst (RequestProof host 3 producer live options (Some 32) tt
                           (mkHeader 256 1) 0%nat)) =
    pre ++ [EvSend {| pwh_BlockID := Some 32; pwh_Header := mkHeader 256 1;
                      pwh_Meta := tt; pwh_Proof := proof; pwh_Degree := 0;
                      pwh_Opts := options; pwh_Tier := TierSgxID host |};
            EvCounterInc] /\
    sent pre = [] /\
    callProverDaemon host 3 live producer options 0%nat
    = (3%nat, pre, Returned (proof, None)).
Proof.
  split; [reflexivity|].
  apply (proj2 (RequestProof_sends_once host 3 producer live options (Some 32) tt
                  (mkHeader 256 1) 0%nat)
               eq_refl 3%nat
               (snd (fst (RequestProof host 3 producer live options (Some 32) tt
                                       (mkHeader 256 1) 0%nat)))
               (Returned None)).
  reflexivity.
Defined.

End ProducerFacts.
